(** * Session engine of the deployment agent: token issuance, rotation,
    revocation and the request guard.

  Shallow embedding of [auth/users.go] (user store), the JWT half of the
  [auth] package (token codec, session store), [middleware/auth.go]
  (request guard) and [handlers/auth.go] (logout), with the properties
  the specification states about them. *)

From Stdlib Require Import ZArith Lia.
From Stdlib.Strings Require Import Ascii String Byte.
From stdpp Require Import base decidable countable strings gmap fin_maps list.

Local Open Scope Z_scope.

(** ** Results of Go calls

  A Go call of type [(T, error)] either yields a value, or an [error]
  (modelled by its message, the only observable part of an error made by
  [fmt.Errorf]), or does not return: it panics, or the process dies. *)

Inductive result (A : Type) : Type :=
| Ok (a : A)
| Err (msg : string)
| Panic (msg : string).
Arguments Ok {A} a.
Arguments Err {A} msg.
Arguments Panic {A} msg.

Definition is_ok {A} (r : result A) : bool :=
match r with Ok _ => true | _ => false end.

Definition failed {A} (r : result A) : Prop :=
match r with Ok _ => False | _ => True end.

(** ** [time]: instants and durations

  A [time.Time] is its number of nanoseconds since the Unix epoch, a
  [time.Duration] its [int64] count of nanoseconds. *)

Module time.

Definition Time := Z.
Definition Duration := Z.

Definition Nanosecond : Duration := 1.
Definition Second : Duration := 1000000000.
Definition Minute : Duration := 60 * Second.
Definition Hour : Duration := 60 * Minute.

Definition maxDuration : Duration := 2 ^ 63 - 1.
Definition minDuration : Duration := - 2 ^ 63.

(** [t.Add(d)]. *)
Definition Add (t : Time) (d : Duration) : Time := t + d.

(** [t.Sub(u)]: the difference, saturated to the range of [Duration]. *)
Definition Sub (t u : Time) : Duration :=
  if maxDuration <? t - u then maxDuration
  else if t - u <? minDuration then minDuration
  else t - u.

(** [t.Unix()]: whole seconds since the epoch, rounded down. *)
Definition Unix (t : Time) : Z := t / Second.

(** [t.Before(u)]. *)
Definition Before (t u : Time) : bool := t <? u.

End time.

(** ** [jwtauth]: the token codec

  The library is used through [New], [Encode], [Decode] and
  [VerifyToken].  A string that travels as a token is modelled by what
  it parses to: [Signed alg key c] is the compact serialisation of the
  claim set [c] with a valid MAC under [key]; [Raw s] is any other
  string (empty, truncated, not a JWS at all). *)

Module jwtauth.

(** A claim value put in the [map[string]interface{}]. *)
Inductive claim : Type :=
| CStr (s : string)
| CNum (n : Z).

Record Claims : Type := mkClaims {
  username : option claim;
  token_id : option claim;
  exp : option Z;
  iat : option Z;
}.

Inductive tokenString : Type :=
| Raw (s : string)
| Signed (alg key : string) (c : Claims).

Record JWTAuth : Type := New {
  alg : string;
  signKey : string;
}.

#[export] Instance claim_eq_dec : EqDecision claim.
Proof. solve_decision. Defined.
#[export] Instance Claims_eq_dec : EqDecision Claims.
Proof. solve_decision. Defined.
#[export] Instance tokenString_eq_dec : EqDecision tokenString.
Proof. solve_decision. Defined.

Definition claim_to_sum (c : claim) : string + Z :=
  match c with CStr s => inl s | CNum n => inr n end.
Definition claim_of_sum (x : string + Z) : claim :=
  match x with inl s => CStr s | inr n => CNum n end.

#[export] Instance claim_countable : Countable claim.
Proof.
  refine (inj_countable' claim_to_sum claim_of_sum _).
  intros []; reflexivity.
Defined.

Definition Claims_to_tuple (c : Claims)
  : option claim * option claim * option Z * option Z :=
  (username c, token_id c, exp c, iat c).
Definition Claims_of_tuple
  (t : option claim * option claim * option Z * option Z) : Claims :=
  let '(u, i, e, a) := t in mkClaims u i e a.

#[export] Instance Claims_countable : Countable Claims.
Proof.
  refine (inj_countable' Claims_to_tuple Claims_of_tuple _).
  intros []; reflexivity.
Defined.

Definition tokenString_to_sum (t : tokenString)
  : string + string * string * Claims :=
  match t with Raw s => inl s | Signed a k c => inr (a, k, c) end.
Definition tokenString_of_sum (x : string + string * string * Claims)
  : tokenString :=
  match x with inl s => Raw s | inr (a, k, c) => Signed a k c end.

#[export] Instance tokenString_countable : Countable tokenString.
Proof.
  refine (inj_countable' tokenString_to_sum tokenString_of_sum _).
  intros []; reflexivity.
Defined.

(** [ja.Encode(claims)]: sign the claim set. *)
Definition Encode (ja : JWTAuth) (c : Claims) : result tokenString :=
  Ok (Signed (alg ja) (signKey ja) c).

(** [ja.Decode(tokenString)]: parse the string and check its MAC; the
    claims are not validated here. *)
Definition Decode (ja : JWTAuth) (t : tokenString) : result Claims :=
  match t with
  | Raw _ => Err "failed to parse token"
  | Signed a k c =>
      if decide (a = alg ja ∧ k = signKey ja) then Ok c
      else Err "could not verify message using any of the signatures or keys"
  end.

(** A date claim the validators take as not set ([tv.IsZero() ||
    tv.Unix() == 0]): the epoch second, and the second of the zero
    [time.Time], the start of year 1. *)
Definition unset (seconds : Z) : bool :=
  (seconds =? 0) || (seconds =? -62135596800).

(** [jwt.Validate]: [exp] must be after now and [iat] not after now,
    both compared in whole seconds; a claim that is absent or [unset] is
    not checked. *)
Definition isExpirationValid (c : Claims) (now : time.Time) : bool :=
  match exp c with
  | Some e => unset e || time.Before (time.Unix now) e
  | None => true
  end.

Definition isIssuedAtValid (c : Claims) (now : time.Time) : bool :=
  match iat c with
  | Some i => unset i || negb (time.Before (time.Unix now) i)
  | None => true
  end.

Definition Validate (c : Claims) (now : time.Time) : result unit :=
  if negb (isIssuedAtValid c now) then Err "token iat validation failed"
  else if negb (isExpirationValid c now) then Err "token is expired"
  else Ok tt.

(** [jwtauth.VerifyToken(ja, tokenString)]: [Decode], then [Validate]
    against the clock. *)
Definition VerifyToken (ja : JWTAuth) (t : tokenString) (now : time.Time)
  : result Claims :=
  match Decode ja t with
  | Ok c =>
      match Validate c now with
      | Ok _ => Ok c
      | Err e => Err e
      | Panic e => Panic e
      end
  | Err e => Err e
  | Panic e => Panic e
  end.

End jwtauth.

(** ** [encoding/hex] and the process environment *)

Module hex.

Definition digit (n : N) : Ascii.ascii :=
  Ascii.ascii_of_N (if (n <? 10)%N then 48 + n else 87 + n)%N.

(** [hex.EncodeToString]: two lower-case digits per byte. *)
Fixpoint EncodeToString (bs : list Byte.byte) : string :=
  match bs with
  | [] => EmptyString
  | b :: rest =>
      String (digit (Byte.to_N b / 16)%N)
        (String (digit (Byte.to_N b mod 16)%N) (EncodeToString rest))
  end.

End hex.

Module os.

(** The environment; [Getenv] yields the empty string for an unset
    variable. *)
Definition Getenv (env : gmap string string) (key : string) : string :=
  default EmptyString (env !! key).

End os.

(** A Go [error]: [None] is [nil], otherwise the message. *)
Definition error := option string.

(** ** [auth/users.go]: the credential store *)

Module users.

Record User : Type := mkUser {
  Username : string;
  PasswordHash : string;
}.

Section bcrypt.

(** [bcrypt.GenerateFromPassword(pw, bcrypt.DefaultCost)] and
    [bcrypt.CompareHashAndPassword(hash, pw)] ([None]: they match). *)
Variable GenerateFromPassword : string → result string.
Variable CompareHashAndPassword : string → string → error.

(** [InitializeUsers]: seeds the admin account from the environment;
    the package-level [users] map is threaded through. *)
Definition InitializeUsers (env : gmap string string)
    (users : gmap string User) : error * gmap string User :=
  let adminUsername := os.Getenv env "ADMIN_USERNAME" in
  if decide (adminUsername = "") then
    (Some "ADMIN_USERNAME environment variable is required", users)
  else
    let adminPassword := os.Getenv env "ADMIN_PASSWORD" in
    if decide (adminPassword = "") then
      (Some "ADMIN_PASSWORD environment variable is required", users)
    else if (String.length adminPassword <? 8)%nat then
      (Some "ADMIN_PASSWORD must be at least 8 characters long", users)
    else
      match GenerateFromPassword adminPassword with
      | Ok hash =>
          (None, <[adminUsername := mkUser adminUsername hash]> users)
      | Err e | Panic e =>
          (Some ("failed to hash admin password: " +:+ e), users)
      end.

(** [ValidateCredentials]. *)
Definition ValidateCredentials (users : gmap string User)
    (username password : string) : error :=
  match users !! username with
  | None => Some "invalid credentials"
  | Some user =>
      match CompareHashAndPassword (PasswordHash user) password with
      | Some _ => Some "invalid credentials"
      | None => None
      end
  end.

(** [AddUser]. *)
Definition AddUser (users : gmap string User)
    (username password : string) : error * gmap string User :=
  match users !! username with
  | Some _ => (Some "user already exists", users)
  | None =>
      match GenerateFromPassword password with
      | Ok hash => (None, <[username := mkUser username hash]> users)
      | Err e | Panic e =>
          (Some ("failed to hash password: " +:+ e), users)
      end
  end.

End bcrypt.

Definition GetUserCount (users : gmap string User) : nat := size users.

Definition UserExists (users : gmap string User) (username : string) : bool :=
  bool_decide (is_Some (users !! username)).

End users.

(** ** The [auth] package, token half: configuration, token issuance and
  the session store *)

Module auth.
Import jwtauth.

(** The package-level variables set by [Initialize]. *)
Record Config : Type := mkConfig {
  AccessTokenAuth : JWTAuth;
  RefreshTokenAuth : JWTAuth;
  AccessTokenDuration : time.Duration;
  RefreshTokenDuration : time.Duration;
}.

Record Session : Type := mkSession {
  Username : string;
  RefreshTokenHash : tokenString;
  CreatedAt : time.Time;
  LastUsedAt : time.Time;
  UserAgent : string;
}.

(** What the package reads and writes besides its configuration: the
    [sessions] map of the [sessionStore] (its lock orders whole calls and
    is not modelled), the wall clock read by [time.Now], and the bytes
    [crypto/rand] will deliver next. *)
Record World : Type := mkWorld {
  sessions : gmap tokenString Session;
  clock : time.Time;
  entropy : list Byte.byte;
}.

Definition set_sessions (m : gmap tokenString Session) (w : World) : World :=
  mkWorld m (clock w) (entropy w).

(** A call that may read and update the world. *)
Definition Go (A : Type) : Type := World → result A * World.

Definition ret {A} (a : A) : Go A := λ w, (Ok a, w).
Definition fail {A} (msg : string) : Go A := λ w, (Err msg, w).
Definition bind {A B} (c : Go A) (k : A → Go B) : Go B :=
  λ w, match c w with
       | (Ok a, w') => k a w'
       | (Err e, w') => (Err e, w')
       | (Panic e, w') => (Panic e, w')
       end.
(** [if err != nil { return ..., fmt.Errorf(prefix + ": %w", err) }]. *)
Definition wrap {A} (prefix : string) (c : Go A) : Go A :=
  λ w, match c w with
       | (Err e, w') => (Err (prefix +:+ ": " +:+ e), w')
       | r => r
       end.
Definition lift {A} (r : result A) : Go A := λ w, (r, w).
Definition Now : Go time.Time := λ w, (Ok (clock w), w).

Notation "'let*' x ':=' c 'in' k" := (bind c (λ x, k))
  (at level 10, x pattern, c at level 200, k at level 200).

Section Initialize.

(** [time.ParseDuration]. *)
Variable ParseDuration : string → result time.Duration.

(** [Initialize]: reads the secrets and the durations; the clean-up
    goroutine it starts is [cleanupExpiredSessions] below. *)
Definition Initialize (env : gmap string string) : result Config :=
  let accessSecret := os.Getenv env "JWT_ACCESS_SECRET" in
  let accessSecret :=
    if decide (accessSecret = "")
    then "default-access-secret-change-this-in-production"
    else accessSecret in
  let refreshSecret := os.Getenv env "JWT_REFRESH_SECRET" in
  let refreshSecret :=
    if decide (refreshSecret = "")
    then "default-refresh-secret-change-this-in-production"
    else refreshSecret in
  let accessDuration := os.Getenv env "ACCESS_TOKEN_DURATION" in
  let accessDuration :=
    if decide (accessDuration = "") then "5m" else accessDuration in
  match ParseDuration accessDuration with
  | Err e | Panic e => Err ("invalid ACCESS_TOKEN_DURATION: " +:+ e)
  | Ok accessTokenDuration =>
      let refreshDuration := os.Getenv env "REFRESH_TOKEN_DURATION" in
      let refreshDuration :=
        if decide (refreshDuration = "") then "168h" else refreshDuration in
      match ParseDuration refreshDuration with
      | Err e | Panic e => Err ("invalid REFRESH_TOKEN_DURATION: " +:+ e)
      | Ok refreshTokenDuration =>
          Ok (mkConfig (New "HS256" accessSecret) (New "HS256" refreshSecret)
                accessTokenDuration refreshTokenDuration)
      end
  end.

End Initialize.

(** [generateRandomString]: [length] bytes of [crypto/rand], in hex.
    [rand.Read] never returns an error: where the source cannot deliver
    the bytes the process is killed, which no caller can handle. *)
Definition generateRandomString (length : nat) : Go string :=
  λ w, if (List.length (entropy w) <? length)%nat
       then (Panic "crypto/rand: failed to read random data", w)
       else (Ok (hex.EncodeToString (take length (entropy w))),
             mkWorld (sessions w) (clock w) (drop length (entropy w))).

(** [hashToken]. *)
Definition hashToken (token : tokenString) : tokenString := token.

(** [GenerateAccessToken]. *)
Definition GenerateAccessToken (cfg : Config) (username : string)
  : Go (tokenString * time.Time) :=
  let* now := Now in
  let expiresAt := time.Add now (AccessTokenDuration cfg) in
  let* iat := Now in
  let claims := mkClaims (Some (CStr username)) None
                  (Some (time.Unix expiresAt)) (Some (time.Unix iat)) in
  let* tokenString := wrap "failed to generate access token"
                      (lift (Encode (AccessTokenAuth cfg) claims)) in
  ret (tokenString, expiresAt).

(** [GenerateRefreshToken]. *)
Definition GenerateRefreshToken (cfg : Config) (username : string)
  : Go (tokenString * time.Time) :=
  let* now := Now in
  let expiresAt := time.Add now (RefreshTokenDuration cfg) in
  let* tokenID := wrap "failed to generate token ID" (generateRandomString 32) in
  let* iat := Now in
  let claims := mkClaims (Some (CStr username)) (Some (CStr tokenID))
                  (Some (time.Unix expiresAt)) (Some (time.Unix iat)) in
  let* tokenString := wrap "failed to generate refresh token"
                      (lift (Encode (RefreshTokenAuth cfg) claims)) in
  ret (tokenString, expiresAt).

(** [CreateSession]. *)
Definition CreateSession (cfg : Config) (username userAgent : string)
  : Go (tokenString * tokenString) :=
  let* (accessToken, _) := GenerateAccessToken cfg username in
  let* (refreshToken, _) := GenerateRefreshToken cfg username in
  let* createdAt := Now in
  let* lastUsedAt := Now in
  let session := mkSession username (hashToken refreshToken)
                   createdAt lastUsedAt userAgent in
  λ w, (Ok (accessToken, refreshToken),
        set_sessions (<[RefreshTokenHash session := session]> (sessions w)) w).

(** [SessionStore.RevokeSession]. *)
Definition RevokeSession (tokenHash : tokenString)
    (s : gmap tokenString Session) : gmap tokenString Session :=
  delete tokenHash s.

(** A [for k, v := range m] loop whose body deletes the entry it is at
    when [cond k v] holds: entries are visited in the map's order and each
    deletion is applied to the map being ranged over. *)
Definition range_delete (cond : tokenString → Session → bool)
    (m : gmap tokenString Session) : gmap tokenString Session :=
  map_fold (λ hash session acc, if cond hash session then delete hash acc else acc) m m.

(** [SessionStore.RevokeAllUserSessions]. *)
Definition RevokeAllUserSessions (username : string)
    (s : gmap tokenString Session) : gmap tokenString Session :=
  range_delete (λ _ session, bool_decide (Username session = username)) s.

(** One tick of the loop in [SessionStore.cleanupExpiredSessions]. *)
Definition cleanupExpiredSessions (cfg : Config) (w : World) : World :=
  let now := clock w in
  set_sessions
    (range_delete
       (λ _ session, RefreshTokenDuration cfg <? time.Sub now (CreatedAt session))
       (sessions w)) w.

(** [SessionStore.GetSessionCount]. *)
Definition GetSessionCount (s : gmap tokenString Session) : nat := size s.

(** [RefreshSession]. *)
Definition RefreshSession (cfg : Config) (oldRefreshToken : tokenString)
    (userAgent : string) : Go (tokenString * tokenString) :=
  λ w,
  let tokenHash := hashToken oldRefreshToken in
  match sessions w !! tokenHash with
  | None => (Err "invalid or expired refresh token", w)
  | Some _ =>
      match Decode (RefreshTokenAuth cfg) oldRefreshToken with
      | Err _ | Panic _ =>
          (Err "invalid refresh token",
           set_sessions (RevokeSession tokenHash (sessions w)) w)
      | Ok token =>
          match username token with
          | None => (Err "invalid token claims", w)
          | Some username =>
              let w := set_sessions (RevokeSession tokenHash (sessions w)) w in
              match username with
              | CStr username => CreateSession cfg username userAgent w
              | CNum _ =>
                  (Panic "interface conversion: interface {} is not string", w)
              end
          end
      end
  end.

End auth.

(** ** [net/http]: what the handlers see of a request and write back *)

Module http.
Import jwtauth.

Inductive SameSite : Type :=
| SameSiteDefaultMode
| SameSiteLaxMode
| SameSiteStrictMode
| SameSiteNoneMode.

Record Cookie : Type := mkCookie {
  Name : string;
  Value : tokenString;
  HttpOnly : bool;
  Secure : bool;
  SameSiteMode : SameSite;
  Path : string;
  MaxAge : Z;
}.

(** The values attached to the request context by the guard. *)
Record Context : Type := mkContext {
  ctx_token : option Claims;
  ctx_username : option claim;
}.

Record Request : Type := mkRequest {
  Cookies : list (string * tokenString);
  UserAgent : string;
  Ctx : Context;
}.

Inductive json : Type :=
| JString (s : string)
| JNumber (n : Z)
| JBool (b : bool).

Inductive Body : Type :=
| Text (msg : string)
| Json (fields : list (string * json)).

Record Response : Type := mkResponse {
  Status : Z;
  SetCookies : list Cookie;
  Payload : Body;
}.

Definition StatusOK : Z := 200.
Definition StatusUnauthorized : Z := 401.
Definition StatusBadRequest : Z := 400.
Definition StatusInternalServerError : Z := 500.

Definition Handler : Type := Request → auth.World → Response * auth.World.

(** [r.Cookie(name)]: the first cookie of that name, if any. *)
Fixpoint lookup_cookie (name : string) (cs : list (string * tokenString))
  : option tokenString :=
  match cs with
  | [] => None
  | (n, v) :: rest => if decide (n = name) then Some v else lookup_cookie name rest
  end.

Definition GetCookie (r : Request) (name : string) : option tokenString :=
  lookup_cookie name (Cookies r).

Definition WithContext (r : Request) (ctx : Context) : Request :=
  mkRequest (Cookies r) (UserAgent r) ctx.

(** [http.Error(w, msg, code)] on a writer that already holds [cs]. *)
Definition Error (cs : list Cookie) (msg : string) (code : Z) : Response :=
  mkResponse code cs (Text msg).

End http.

(** ** [middleware/auth.go]: the request guard *)

Module middleware.
Import jwtauth http.

(** [Protected]. *)
Definition Protected (cfg : auth.Config) (next : Handler) : Handler :=
  λ r w,
  match GetCookie r "access_token" with
  | None => (Error [] "Unauthorized - No access token" StatusUnauthorized, w)
  | Some value =>
      match VerifyToken (auth.AccessTokenAuth cfg) value (auth.clock w) with
      | Err _ | Panic _ =>
          (Error [] "Unauthorized - Invalid token" StatusUnauthorized, w)
      | Ok token =>
          let ctx := mkContext (Some token) (ctx_username (Ctx r)) in
          let ctx :=
            match username token with
            | Some username => mkContext (ctx_token ctx) (Some username)
            | None => ctx
            end in
          next (WithContext r ctx) w
      end
  end.

(** [GetUsername]. *)
Definition GetUsername (r : Request) : string :=
  match ctx_username (Ctx r) with
  | Some (CStr username) => username
  | _ => ""
  end.

End middleware.

(** ** [handlers/auth.go]: refresh, logout and [Me] *)

Module handlers.
Import jwtauth http.

Definition isProduction (env : gmap string string) : bool :=
  bool_decide (os.Getenv env "ENVIRONMENT" = "production").

(** [clearAuthCookies]. *)
Definition clearAuthCookies (env : gmap string string) : list Cookie :=
  [ mkCookie "access_token" (Raw "") true (isProduction env) SameSiteStrictMode "/" (-1);
    mkCookie "refresh_token" (Raw "") true (isProduction env) SameSiteStrictMode
      "/auth/refresh" (-1) ].

Section cookies.

(** [int(d.Seconds())], the cookies' [MaxAge]: the duration as a [float64]
    number of seconds, cut to an [int]. *)
Variable Seconds : time.Duration → Z.

(** [(h *AuthHandler) Refresh]; a panic inside [RefreshSession] unwinds
    through the handler, which then writes nothing. *)
Definition Refresh (env : gmap string string) (cfg : auth.Config)
  : Request → auth.World → result Response * auth.World :=
  λ r w,
  match GetCookie r "refresh_token" with
  | None => (Ok (Error [] "Refresh token not found" StatusUnauthorized), w)
  | Some value =>
      match auth.RefreshSession cfg value (UserAgent r) w with
      | (Ok (newAccessToken, newRefreshToken), w') =>
          (Ok (mkResponse StatusOK
                 [ mkCookie "access_token" newAccessToken true (isProduction env)
                     SameSiteStrictMode "/" (Seconds (auth.AccessTokenDuration cfg));
                   mkCookie "refresh_token" newRefreshToken true (isProduction env)
                     SameSiteStrictMode "/auth/refresh"
                     (Seconds (auth.RefreshTokenDuration cfg)) ]
                 (Json [("message", JString "Token refreshed successfully");
                        ("expires_in",
                         JNumber (Seconds (auth.AccessTokenDuration cfg)))])), w')
      | (Err _, w') =>
          (Ok (Error (clearAuthCookies env) "Invalid or expired refresh token"
                 StatusUnauthorized), w')
      | (Panic e, w') => (Panic e, w')
      end
  end.

(** [(h *AuthHandler) Logout]: the cookie is read, its value is dropped
    ([_ = tokenHash]), and the cookies are cleared. *)
Definition Logout (env : gmap string string) : Handler :=
  λ r w,
  let _tokenHash :=
    match GetCookie r "refresh_token" with
    | Some value => Some value
    | None => None
    end in
  (mkResponse StatusOK (clearAuthCookies env)
     (Json [("message", JString "Logged out successfully")]), w).

(** [(h *AuthHandler) Me]. *)
Definition Me : Handler :=
  λ r w,
  let username := middleware.GetUsername r in
  if decide (username = "") then (Error [] "Unauthorized" StatusUnauthorized, w)
  else (mkResponse StatusOK [] (Json [("username", JString username); ("authenticated", JBool true)]), w).

(** The body of a login request, as [json.Decode] fills it. *)
Record LoginRequest : Type := mkLoginRequest {
  Username : string;
  Password : string;
}.

Section Login.

(** [bcrypt.CompareHashAndPassword], as in [users]. *)
Variable CompareHashAndPassword : string → string → error.

(** [(h *AuthHandler) Login]; [body] is what
    [json.NewDecoder(r.Body).Decode(&req)] yields, [us] the user store. *)
Definition Login (env : gmap string string) (cfg : auth.Config)
    (us : gmap string users.User) (body : result LoginRequest)
  : Request → auth.World → result Response * auth.World :=
  λ r w,
  match body with
  | Err _ => (Ok (Error [] "Invalid request body" StatusBadRequest), w)
  | Panic e => (Panic e, w)
  | Ok req =>
      match users.ValidateCredentials CompareHashAndPassword us
              (Username req) (Password req) with
      | Some _ => (Ok (Error [] "Invalid credentials" StatusUnauthorized), w)
      | None =>
          match auth.CreateSession cfg (Username req) (UserAgent r) w with
          | (Ok (accessToken, refreshToken), w') =>
              (Ok (mkResponse StatusOK
                     [ mkCookie "access_token" accessToken true (isProduction env)
                         SameSiteStrictMode "/"
                         (Seconds (auth.AccessTokenDuration cfg));
                       mkCookie "refresh_token" refreshToken true (isProduction env)
                         SameSiteStrictMode "/auth/refresh"
                         (Seconds (auth.RefreshTokenDuration cfg)) ]
                     (Json [("authenticated", JBool true);
                            ("username", JString (Username req))])), w')
          | (Err _, w') =>
              (Ok (Error [] "Failed to create session" StatusInternalServerError), w')
          | (Panic e, w') => (Panic e, w')
          end
      end
  end.

End Login.

End cookies.

End handlers.

(** ** Runs of the service

  The calls that reach the session store, one after the other (the store's
  lock serialises them), and the passing of time between them. *)

Module service.
Import jwtauth.

Inductive call : Type :=
| Login (username userAgent : string)       (* [CreateSession], after valid credentials *)
| Refresh (token : tokenString) (userAgent : string)
| Logout (r : http.Request)
| Revoke (tokenHash : tokenString)
| RevokeAll (username : string)
| Cleanup                                   (* one tick of the clean-up loop *)
| Sleep (d : time.Duration).

Definition step (env : gmap string string) (cfg : auth.Config)
    (w : auth.World) (c : call) : auth.World :=
  match c with
  | Login u ua => snd (auth.CreateSession cfg u ua w)
  | Refresh t ua => snd (auth.RefreshSession cfg t ua w)
  | Logout r => snd (handlers.Logout env r w)
  | Revoke h => auth.set_sessions (auth.RevokeSession h (auth.sessions w)) w
  | RevokeAll u => auth.set_sessions (auth.RevokeAllUserSessions u (auth.sessions w)) w
  | Cleanup => auth.cleanupExpiredSessions cfg w
  | Sleep d => auth.mkWorld (auth.sessions w) (time.Add (auth.clock w) d) (auth.entropy w)
  end.

Definition run (env : gmap string string) (cfg : auth.Config)
    (w : auth.World) (cs : list call) : auth.World :=
  foldl (step env cfg) w cs.

End service.

(** ** [strings]: suffixes *)

Module strings.

(** [strings.HasSuffix]. *)
Definition HasSuffix (s suffix : string) : bool :=
  (String.length suffix <=? String.length s)%nat
  && String.eqb
       (substring (String.length s - String.length suffix) (String.length suffix) s)
       suffix.

(** [strings.TrimSuffix]. *)
Definition TrimSuffix (s suffix : string) : string :=
  if HasSuffix s suffix
  then substring 0 (String.length s - String.length suffix) s
  else s.

End strings.

(** ** The [registry] package: the client of the image registry *)

Module registry.

Record Client : Type := mkClient {
  baseURL : string;
  username : string;
  password : string;
  InsecureSkipVerify : bool;
}.

Record RepositoryInfo : Type := mkRepositoryInfo {
  Name : string;
  Tags : list string;
}.

(** [TagsResponse]; [Tags] is [None] for a [nil] slice. *)
Record TagsResponse : Type := mkTagsResponse {
  tr_Name : string;
  tr_Tags : option (list string);
}.

(** [NewClient]. *)
Definition NewClient (env : gmap string string) : result Client :=
  let baseURL := os.Getenv env "REGISTRY_URL" in
  if decide (baseURL = "") then
    Err "REGISTRY_URL environment variable is required"
  else
    let baseURL := strings.TrimSuffix baseURL "/" in
    let username := os.Getenv env "REGISTRY_USERNAME" in
    let password := os.Getenv env "REGISTRY_PASSWORD" in
    Ok (mkClient baseURL username password
          (bool_decide (username = "") && bool_decide (password = ""))).

Section requests.

(** [(c *Client) doRequest] for a path, and [json.Unmarshal] into the two
    response types. *)
Variable doRequest : string → result string.
Variable UnmarshalRepositories : string → result (list string).
Variable UnmarshalTags : string → result TagsResponse.

(** [(c *Client) ListRepositories]. *)
Definition ListRepositories : result (list string) :=
  match doRequest "/v2/_catalog" with
  | Err e | Panic e => Err ("failed to list repositories: " +:+ e)
  | Ok body =>
      match UnmarshalRepositories body with
      | Err e | Panic e => Err ("failed to parse repositories response: " +:+ e)
      | Ok repositories => Ok repositories
      end
  end.

(** [(c *Client) ListTags]. *)
Definition ListTags (repository : string) : result (list string) :=
  let path := "/v2/" +:+ repository +:+ "/tags/list" in
  match doRequest path with
  | Err e | Panic e =>
      Err ("failed to list tags for " +:+ repository +:+ ": " +:+ e)
  | Ok body =>
      match UnmarshalTags body with
      | Err e | Panic e => Err ("failed to parse tags response: " +:+ e)
      | Ok response =>
          match tr_Tags response with
          | None => Ok []
          | Some tags => Ok tags
          end
      end
  end.

(** The loop of [ListRepositoriesWithTags], appending to [result]. *)
Fixpoint collectTags (repos : list string) (result : list RepositoryInfo)
  : list RepositoryInfo :=
  match repos with
  | [] => result
  | repo :: rest =>
      match ListTags repo with
      | Ok tags => collectTags rest (result ++ [mkRepositoryInfo repo tags])
      | Err _ | Panic _ => collectTags rest (result ++ [mkRepositoryInfo repo []])
      end
  end.

(** [(c *Client) ListRepositoriesWithTags]. *)
Definition ListRepositoriesWithTags : result (list RepositoryInfo) :=
  match ListRepositories with
  | Ok repos => Ok (collectTags repos [])
  | Err e => Err e
  | Panic e => Panic e
  end.

End requests.

(** [(c *Client) GetRegistryURL]. *)
Definition GetRegistryURL (c : Client) : string := baseURL c.

End registry.

(** ** The [projects] package: the containers of a project *)

Module projects.

(** What the service reads of a container in the list Docker returns. *)
Record Container : Type := mkContainer {
  ID : string;
  Names : list string;
  Labels : gmap string string;
  State : string;
  Status : string;
}.

Record ProjectContainerInfo : Type := mkProjectContainerInfo {
  pc_ID : string;
  pc_Name : string;
  pc_Service : string;
  pc_State : string;
  pc_Status : string;
}.

(** The label filter both functions pass to [ContainerList]. *)
Definition projectFilter (projectName : string) : string :=
  "com.docker.compose.project=" +:+ projectName.

(** One pass of the loop of [getProjectContainers]; slicing [c.ID[:12]]
    panics on a shorter id. *)
Definition containerInfo (c : Container) : result ProjectContainerInfo :=
  let name :=
    match Names c with
    | [] => ""
    | name :: _ =>
        match name with
        | String "/" rest => rest
        | _ => name
        end
    end in
  let serviceName := default "" (Labels c !! "com.docker.compose.service") in
  if (String.length (ID c) <? 12)%nat then
    Panic "slice bounds out of range"
  else
    Ok (mkProjectContainerInfo (substring 0 12 (ID c)) name serviceName
          (State c) (Status c)).

Fixpoint containerInfos (cs : list Container) (result0 : list ProjectContainerInfo)
  : result (list ProjectContainerInfo) :=
  match cs with
  | [] => Ok result0
  | c :: rest =>
      match containerInfo c with
      | Ok info => containerInfos rest (result0 ++ [info])
      | Err e => Err e
      | Panic e => Panic e
      end
  end.

(** [(s *Service) getProjectContainers]; [dockerClient] is [None] for a
    [nil] client, otherwise its [ContainerList] by label filter. *)
Definition getProjectContainers
    (dockerClient : option (string → result (list Container)))
    (projectName : string) : result (list ProjectContainerInfo) :=
  match dockerClient with
  | None => Ok []
  | Some ContainerList =>
      match ContainerList (projectFilter projectName) with
      | Err _ | Panic _ => Ok []
      | Ok containers => containerInfos containers []
      end
  end.

(** The loop of [getContainerCounts]. *)
Fixpoint countStates (cs : list Container) (running stopped : Z) : Z * Z :=
  match cs with
  | [] => (running, stopped)
  | c :: rest =>
      if decide (State c = "running")
      then countStates rest (running + 1) stopped
      else countStates rest running (stopped + 1)
  end.

(** [(s *Service) getContainerCounts]. *)
Definition getContainerCounts
    (dockerClient : option (string → result (list Container)))
    (projectName : string) : Z * Z :=
  match dockerClient with
  | None => (0, 0)
  | Some ContainerList =>
      match ContainerList (projectFilter projectName) with
      | Err _ | Panic _ => (0, 0)
      | Ok containers => countStates containers 0 0
      end
  end.

End projects.

(** ** Notions used to state the properties *)

Module spec.
Import jwtauth auth.

(** A session the clean-up pass at [now] considers too old. *)
Definition expired (cfg : Config) (now : time.Time) (s : Session) : Prop :=
  RefreshTokenDuration cfg < time.Sub now (CreatedAt s).

#[export] Instance expired_dec cfg now s : Decision (expired cfg now s).
Proof. unfold expired. apply _. Defined.

(** The [token_id] claim of a token string. *)
Definition refresh_id (t : tokenString) : option string :=
  match t with
  | Signed _ _ c =>
      match token_id c with
      | Some (CStr x) => Some x
      | _ => None
      end
  | Raw _ => None
  end.

(** The token ids [generateRandomString 32] will hand out, in order, from
    the bytes [e] still to be read. *)
Fixpoint ids_of (fuel : nat) (e : list Byte.byte) : list string :=
  match fuel with
  | O => []
  | S fuel =>
      if (List.length e <? 32)%nat then []
      else hex.EncodeToString (take 32 e) :: ids_of fuel (drop 32 e)
  end.

Definition future_ids (e : list Byte.byte) : list string :=
  ids_of (List.length e) e.

(** The random source does not produce the id of [t] again. *)
Definition never_minted (t : tokenString) (e : list Byte.byte) : Prop :=
  ∀ x, refresh_id t = Some x → x ∉ future_ids e.

(** A token that is not filed in the store and whose id the random
    source does not produce again. *)
Definition gone (t : tokenString) (w : World) : Prop :=
  sessions w !! t = None ∧ never_minted t (entropy w).

(** What every entry of the store looks like: it is filed under the
    [RefreshTokenHash] it records, and that key is a refresh token of its
    owner which [Decode] accepts. *)
Definition entry_ok (cfg : Config) (k : tokenString) (s : Session) : Prop :=
  RefreshTokenHash s = k ∧
  ∃ c, Decode (RefreshTokenAuth cfg) k = Ok c ∧
       username c = Some (CStr (Username s)).

Definition store_ok (cfg : Config) (w : World) : Prop :=
  ∀ k s, sessions w !! k = Some s → entry_ok cfg k s.

(** The claims [Decode] reads from a token under the refresh key. *)
Definition Decode_claims (cfg : Config) (t : tokenString) : option Claims :=
  match Decode (RefreshTokenAuth cfg) t with
  | Ok c => Some c
  | _ => None
  end.

(** The refresh token and the session [CreateSession] makes when the
    random source has at least 32 bytes left. *)
Definition minted_refresh (cfg : Config) (username : string) (w : World)
  : tokenString :=
  Signed (alg (RefreshTokenAuth cfg)) (signKey (RefreshTokenAuth cfg))
    (mkClaims (Some (CStr username))
       (Some (CStr (hex.EncodeToString (take 32 (entropy w)))))
       (Some (time.Unix (time.Add (clock w) (RefreshTokenDuration cfg))))
       (Some (time.Unix (clock w)))).

Definition access_claims (cfg : Config) (username : string) (w : World)
  : Claims :=
  mkClaims (Some (CStr username)) None
    (Some (time.Unix (time.Add (clock w) (AccessTokenDuration cfg))))
    (Some (time.Unix (clock w))).

Definition minted_access (cfg : Config) (username : string) (w : World)
  : tokenString :=
  Signed (alg (AccessTokenAuth cfg)) (signKey (AccessTokenAuth cfg))
    (access_claims cfg username w).

(** The request as the guard hands it on for a token with claims [c]
    of user [username]. *)
Definition passed_on (r : http.Request) (c : Claims) (username : string)
  : http.Request :=
  http.WithContext r (http.mkContext (Some c) (Some (CStr username))).

(** The guard's rejection of a token that does not verify. *)
Definition invalid_token : http.Response :=
  http.Error [] "Unauthorized - Invalid token" http.StatusUnauthorized.

(** The duration strings [Initialize] parses. *)
Definition access_duration_text (env : gmap string string) : string :=
  let d := os.Getenv env "ACCESS_TOKEN_DURATION" in
  if decide (d = "") then "5m" else d.

Definition refresh_duration_text (env : gmap string string) : string :=
  let d := os.Getenv env "REFRESH_TOKEN_DURATION" in
  if decide (d = "") then "168h" else d.

Definition minted_session (cfg : Config) (username userAgent : string)
    (w : World) : Session :=
  mkSession username (minted_refresh cfg username w) (clock w) (clock w) userAgent.

(** Every filed token has an id the random source does not produce again. *)
Definition store_fresh (w : World) : Prop :=
  ∀ k s, sessions w !! k = Some s → never_minted k (entropy w).

(** The filed token carries, as its [exp] claim, the second at which the
    session filed under it turns [RefreshTokenDuration] old. *)
Definition entry_dated (cfg : Config) (k : tokenString) (s : Session) : Prop :=
  ∃ c, Decode (RefreshTokenAuth cfg) k = Ok c ∧
       exp c = Some (time.Unix (time.Add (CreatedAt s) (RefreshTokenDuration cfg))).

(** Every filed session, with its key, satisfies [P]. *)
Definition every_entry (P : tokenString → Session → Prop) (w : World) : Prop :=
  ∀ k s, sessions w !! k = Some s → P k s.

(** A hash made by [GenerateFromPassword] is accepted by
    [CompareHashAndPassword] for the same password. *)
Definition bcrypt_sound (GenerateFromPassword : string → result string)
    (CompareHashAndPassword : string → string → error) : Prop :=
  ∀ password hash,
    GenerateFromPassword password = Ok hash →
    CompareHashAndPassword hash password = None.

(** The two cookies a successful login or refresh sets; [Seconds] is
    [int(d.Seconds())]. *)
Definition session_cookies (Seconds : time.Duration → Z)
    (env : gmap string string) (cfg : Config)
    (accessToken refreshToken : tokenString) : list http.Cookie :=
  [ http.mkCookie "access_token" accessToken true (handlers.isProduction env)
      http.SameSiteStrictMode "/" (Seconds (AccessTokenDuration cfg));
    http.mkCookie "refresh_token" refreshToken true (handlers.isProduction env)
      http.SameSiteStrictMode "/auth/refresh"
      (Seconds (RefreshTokenDuration cfg)) ].

(** The guard's context for a token with claims [c], on a request whose
    context held [previous] as user name. *)
Definition guard_context (c : Claims) (previous : option claim) : http.Context :=
  http.mkContext (Some c)
    match username c with
    | Some x => Some x
    | None => previous
    end.

(** The claims of the refresh token [CreateSession] makes. *)
Definition refresh_claims (cfg : Config) (username : string) (w : World)
  : Claims :=
  mkClaims (Some (CStr username))
    (Some (CStr (hex.EncodeToString (take 32 (entropy w)))))
    (Some (time.Unix (time.Add (clock w) (RefreshTokenDuration cfg))))
    (Some (time.Unix (clock w))).

End spec.

(** ** A small deployment used in the examples *)

Module example.
Import jwtauth auth.

Definition cfg0 : Config :=
  mkConfig (New "HS256" "access-secret") (New "HS256" "refresh-secret")
    (5 * time.Minute) (168 * time.Hour).

(** The next 96 bytes of the random source: three token ids. *)
Definition bytes0 : list Byte.byte :=
  repeat x41 32 ++ repeat x42 32 ++ repeat x43 32.

(** An empty store, at 0.7 s past a whole second. *)
Definition w0 : World := mkWorld ∅ 1700000000700000000 bytes0.

Definition access0 : tokenString :=
  Signed "HS256" "access-secret"
    (mkClaims (Some (CStr "admin")) None (Some 1700000300) (Some 1700000000)).

Definition refresh0 : tokenString :=
  Signed "HS256" "refresh-secret"
    (mkClaims (Some (CStr "admin"))
       (Some (CStr "4141414141414141414141414141414141414141414141414141414141414141"))
       (Some 1700604800) (Some 1700000000)).

Definition session0 : Session :=
  mkSession "admin" refresh0 1700000000700000000 1700000000700000000 "curl".

(** The world after [CreateSession cfg0 "admin" "curl"] in [w0]. *)
Definition w1 : World :=
  mkWorld {[ refresh0 := session0 ]} 1700000000700000000
    (repeat x42 32 ++ repeat x43 32).

(** The refresh token and the world after [RefreshSession cfg0 refresh0
    "curl"] in [w1]. *)
Definition refresh1 : tokenString :=
  Signed "HS256" "refresh-secret"
    (mkClaims (Some (CStr "admin"))
       (Some (CStr "4242424242424242424242424242424242424242424242424242424242424242"))
       (Some 1700604800) (Some 1700000000)).

Definition session1 : Session :=
  mkSession "admin" refresh1 1700000000700000000 1700000000700000000 "curl".

Definition w2 : World :=
  mkWorld {[ refresh1 := session1 ]} 1700000000700000000 (repeat x43 32).

(** A login; the hourly clean-up pass that falls a quarter of an hour
    before the session turns 168 hours old; and half an hour more, the next
    pass not yet being due. *)
Definition stale_run : list service.call :=
  [service.Login "admin" "curl";
   service.Sleep (167 * time.Hour + 45 * time.Minute);
   service.Cleanup;
   service.Sleep (30 * time.Minute)].

Definition request (cookies : list (string * tokenString)) : http.Request :=
  http.mkRequest cookies "curl" (http.mkContext None None).

(** An environment with the admin account and nothing else but two
    durations, the access one being the longer. *)
Definition env0 : gmap string string :=
  {[ "ADMIN_USERNAME" := "admin"; "ADMIN_PASSWORD" := "devpass123";
     "ACCESS_TOKEN_DURATION" := "168h"; "REFRESH_TOKEN_DURATION" := "5m" ]}.

(** [time.ParseDuration] on the strings the examples use. *)
Definition ParseDuration (s : string) : result time.Duration :=
  if decide (s = "5m") then Ok (5 * time.Minute)
  else if decide (s = "168h") then Ok (168 * time.Hour)
  else Err ("time: invalid duration " +:+ s).

(** A stand-in for bcrypt: the hash is the password behind a prefix. *)
Definition GenerateFromPassword (password : string) : result string :=
  Ok ("$2a$10$" +:+ password).

Definition CompareHashAndPassword (hash password : string) : error :=
  if decide (hash = "$2a$10$" +:+ password) then None
  else Some "crypto/bcrypt: hashedPassword is not the hash of the given password".

Definition users0 : gmap string users.User :=
  {[ "admin" := users.mkUser "admin" "$2a$10$devpass123" ]}.

(** An environment that sets both signing secrets to the same value, and
    the configuration [Initialize] makes of it. *)
Definition env_shared : gmap string string :=
  {[ "JWT_ACCESS_SECRET" := "s3cret"; "JWT_REFRESH_SECRET" := "s3cret" ]}.

Definition cfg_shared : Config :=
  mkConfig (New "HS256" "s3cret") (New "HS256" "s3cret")
    (5 * time.Minute) (168 * time.Hour).

(** [int(d.Seconds())] on durations of whole seconds, as the examples
    use. *)
Definition Seconds (d : time.Duration) : Z := Z.quot d time.Second.

(** A configuration whose access tokens last no time at all. *)
Definition cfg_zero : Config :=
  mkConfig (New "HS256" "access-secret") (New "HS256" "refresh-secret")
    0 (168 * time.Hour).

End example.

(** * Properties *)

(** ** The range-and-delete loop *)

Section range_delete.
Import jwtauth auth.
Implicit Types (m : gmap tokenString Session) (cond : tokenString → Session → bool).

Lemma range_fold_lookup cond m m0 h :
  map_fold (λ hash session acc, if cond hash session then delete hash acc else acc) m0 m !! h
  = match m !! h with
    | Some s => if cond h s then None else m0 !! h
    | None => m0 !! h
    end.
Proof.
  induction m as [|i x m Hi Hfirst IH] using map_first_key_ind.
  - by rewrite map_fold_empty, lookup_empty.
  - rewrite map_fold_insert_first_key by done.
    destruct (decide (i = h)) as [->|Hne].
    + rewrite lookup_insert_eq. destruct (cond h x).
      * by rewrite lookup_delete_eq.
      * by rewrite IH, Hi.
    + rewrite lookup_insert_ne by done. destruct (cond i x).
      * by rewrite lookup_delete_ne, IH.
      * by rewrite IH.
Qed.

Lemma range_delete_lookup cond m h :
  range_delete cond m !! h
  = match m !! h with
    | Some s => if cond h s then None else Some s
    | None => None
    end.
Proof.
  unfold range_delete. rewrite range_fold_lookup.
  destruct (m !! h) eqn:E; by rewrite ?E.
Qed.

Lemma range_delete_filter cond m :
  range_delete cond m = filter (λ kv, cond kv.1 kv.2 = false) m.
Proof.
  apply map_eq; intros h. rewrite range_delete_lookup, map_lookup_filter.
  destruct (m !! h) as [s|]; simpl; [|done].
  destruct (cond h s) eqn:E.
  - rewrite option_guard_False; [done|]. simpl. congruence.
  - by rewrite option_guard_True.
Qed.

Lemma range_delete_None cond m h : m !! h = None → range_delete cond m !! h = None.
Proof. intros E. by rewrite range_delete_lookup, E. Qed.

Lemma size_filter_split (P : tokenString * Session → Prop)
    `{!∀ x, Decision (P x)} m :
  (size (filter P m) + size (filter (λ x, ¬ P x) m) = size m)%nat.
Proof.
  rewrite <- map_size_disj_union by apply map_disjoint_filter_complement.
  by rewrite map_filter_union_complement.
Qed.

End range_delete.

(** ** Token issuance, computed *)

Section issuance.
Import jwtauth auth spec.

Lemma GenerateAccessToken_eq cfg u w :
  GenerateAccessToken cfg u w
  = (Ok (minted_access cfg u w, time.Add (clock w) (AccessTokenDuration cfg)), w).
Proof. reflexivity. Qed.

Lemma CreateSession_eq cfg u ua w :
  CreateSession cfg u ua w
  = if (List.length (entropy w) <? 32)%nat
    then (Panic "crypto/rand: failed to read random data", w)
    else (Ok (minted_access cfg u w, minted_refresh cfg u w),
          mkWorld (<[minted_refresh cfg u w := minted_session cfg u ua w]> (sessions w))
            (clock w) (drop 32 (entropy w))).
Proof.
  unfold CreateSession, GenerateRefreshToken, GenerateAccessToken, bind, wrap,
    generateRandomString, Now, lift, ret, Encode; simpl.
  destruct (List.length (entropy w) <? 32)%nat; reflexivity.
Qed.

Lemma ids_of_fuel f1 : ∀ f2 e,
  (List.length e ≤ f1)%nat → (List.length e ≤ f2)%nat → ids_of f1 e = ids_of f2 e.
Proof.
  induction f1 as [|f1 IH]; intros f2 e H1 H2.
  - destruct e; [|simpl in H1; lia]. destruct f2; reflexivity.
  - destruct f2 as [|f2].
    + destruct e; [|simpl in H2; lia]. reflexivity.
    + simpl. destruct (List.length e <? 32)%nat eqn:E; [done|].
      apply Nat.ltb_ge in E. f_equal.
      apply IH; rewrite length_drop; lia.
Qed.

Lemma future_ids_cons e :
  (32 ≤ List.length e)%nat →
  future_ids e = hex.EncodeToString (take 32 e) :: future_ids (drop 32 e).
Proof.
  intros H. unfold future_ids.
  destruct (List.length e) as [|n] eqn:E; [lia|]. simpl.
  destruct (List.length e <? 32)%nat eqn:E'; [apply Nat.ltb_lt in E'; lia|].
  f_equal. apply ids_of_fuel; rewrite length_drop; lia.
Qed.

Lemma never_minted_drop t e :
  (32 ≤ List.length e)%nat → never_minted t e → never_minted t (drop 32 e).
Proof.
  intros H Hnm x Hx Hin. apply (Hnm x Hx).
  rewrite future_ids_cons by done. by apply list_elem_of_further.
Qed.

Lemma never_minted_head cfg u t w :
  (32 ≤ List.length (entropy w))%nat → never_minted t (entropy w) →
  minted_refresh cfg u w ≠ t.
Proof.
  intros H Hnm <-. apply (Hnm (hex.EncodeToString (take 32 (entropy w)))).
  - reflexivity.
  - rewrite future_ids_cons by done. apply list_elem_of_here.
Qed.

End issuance.

(** ** What a run preserves *)

Section runs.
Import jwtauth auth spec service.
Variable env : gmap string string.
Variable cfg : Config.

Lemma Decode_minted u w :
  Decode (RefreshTokenAuth cfg) (minted_refresh cfg u w)
  = Ok (mkClaims (Some (CStr u))
          (Some (CStr (hex.EncodeToString (take 32 (entropy w)))))
          (Some (time.Unix (time.Add (clock w) (RefreshTokenDuration cfg))))
          (Some (time.Unix (clock w)))).
Proof. unfold Decode, minted_refresh. by rewrite decide_True. Qed.

Lemma CreateSession_gone t u ua w :
  gone t w → gone t (CreateSession cfg u ua w).2.
Proof.
  intros [Hn Hm]. rewrite CreateSession_eq.
  destruct (List.length (entropy w) <? 32)%nat eqn:E; [done|].
  apply Nat.ltb_ge in E. split; simpl.
  - rewrite lookup_insert_ne; [done|]. by apply never_minted_head.
  - by apply never_minted_drop.
Qed.

Lemma RefreshSession_gone t t' ua w :
  gone t w → gone t (RefreshSession cfg t' ua w).2.
Proof.
  intros [Hn Hm]. unfold RefreshSession, hashToken, RevokeSession.
  assert (Hd : gone t (set_sessions (delete t' (sessions w)) w)).
  { split; [|done]. simpl. by apply lookup_delete_None; right. }
  destruct (sessions w !! t'); [|done].
  destruct (Decode (RefreshTokenAuth cfg) t') as [c| |]; [|done..].
  destruct (username c) as [[x|n]|]; [|done..].
  by apply CreateSession_gone.
Qed.

Lemma step_gone t w c : gone t w → gone t (step env cfg w c).
Proof.
  intros H. destruct c; simpl.
  - by apply CreateSession_gone.
  - by apply RefreshSession_gone.
  - done.
  - destruct H as [Hn Hm]. split; [|done]. simpl.
    unfold RevokeSession. by apply lookup_delete_None; right.
  - destruct H as [Hn Hm]. split; [|done]. simpl.
    by apply range_delete_None.
  - destruct H as [Hn Hm]. split; [|done]. simpl.
    by apply range_delete_None.
  - done.
Qed.

Lemma run_gone t cs : ∀ w, gone t w → gone t (run env cfg w cs).
Proof.
  induction cs as [|c cs IH]; intros w H; [done|].
  simpl. apply IH. by apply step_gone.
Qed.

Lemma RefreshSession_absent t ua w :
  sessions w !! t = None →
  RefreshSession cfg t ua w = (Err "invalid or expired refresh token", w).
Proof. intros H. unfold RefreshSession, hashToken. by rewrite H. Qed.

(** Entries are only ever added by [CreateSession]. *)
Lemma CreateSession_store_ok u ua w :
  store_ok cfg w → store_ok cfg (CreateSession cfg u ua w).2.
Proof.
  intros H. rewrite CreateSession_eq.
  destruct (List.length (entropy w) <? 32)%nat; [done|].
  intros k s. simpl. rewrite lookup_insert.
  case_decide as Hk.
  - intros [= <-]. subst k. split; [done|].
    eexists. split; [apply Decode_minted|done].
  - apply H.
Qed.

Lemma delete_store_ok h w :
  store_ok cfg w → store_ok cfg (set_sessions (delete h (sessions w)) w).
Proof.
  intros H k s. simpl. intros [_ Hl]%lookup_delete_Some. by apply H.
Qed.

Lemma range_delete_store_ok cond w :
  store_ok cfg w → store_ok cfg (set_sessions (range_delete cond (sessions w)) w).
Proof.
  intros H k s. simpl. rewrite range_delete_lookup.
  destruct (sessions w !! k) as [s'|] eqn:E; [|done].
  destruct (cond k s'); [done|]. intros [= <-]. by apply H.
Qed.

Lemma RefreshSession_store_ok t ua w :
  store_ok cfg w → store_ok cfg (RefreshSession cfg t ua w).2.
Proof.
  intros H. unfold RefreshSession, hashToken, RevokeSession.
  pose proof (delete_store_ok t w H) as Hd.
  destruct (sessions w !! t); [|done].
  destruct (Decode (RefreshTokenAuth cfg) t) as [c| |]; [|done..].
  destruct (username c) as [[x|n]|]; [|done..].
  by apply CreateSession_store_ok.
Qed.

Lemma step_store_ok w c : store_ok cfg w → store_ok cfg (step env cfg w c).
Proof.
  intros H. destruct c; simpl.
  - by apply CreateSession_store_ok.
  - by apply RefreshSession_store_ok.
  - done.
  - by apply delete_store_ok.
  - by apply range_delete_store_ok.
  - by apply range_delete_store_ok.
  - done.
Qed.

Lemma run_store_ok cs : ∀ w, store_ok cfg w → store_ok cfg (run env cfg w cs).
Proof.
  induction cs as [|c cs IH]; intros w H; [done|].
  simpl. apply IH. by apply step_store_ok.
Qed.

End runs.

(** ** The clean-up pass *)

Section cleanup.
Import jwtauth auth spec.

(** C7. One pass of the clean-up loop removes exactly the sessions whose
    age [now.Sub(CreatedAt)] exceeds the refresh-token duration: every
    other session is still filed, unchanged, and of [N] sessions with [K]
    too old, [N - K] remain ([remaining + K = N]). *)
Theorem cleanup_removes_exactly_expired (cfg : Config) (w : World) :
  let w' := cleanupExpiredSessions cfg w in
  (∀ h, sessions w' !! h
        = match sessions w !! h with
          | Some s => if decide (expired cfg (clock w) s) then None else Some s
          | None => None
          end)
  ∧ (size (sessions w')
     + size (filter (λ kv, expired cfg (clock w) kv.2) (sessions w))
     = size (sessions w))%nat
  ∧ clock w' = clock w ∧ entropy w' = entropy w.
Proof.
  simpl. repeat split.
  - intros h. rewrite range_delete_lookup.
    destruct (sessions w !! h) as [s|]; [|done]. unfold expired.
    destruct (Z.ltb_spec (RefreshTokenDuration cfg) (time.Sub (clock w) (CreatedAt s)));
      [by rewrite decide_True|by rewrite decide_False by lia].
  - rewrite range_delete_filter.
    rewrite <- (size_filter_split (λ kv, expired cfg (clock w) kv.2) (sessions w)).
    rewrite Nat.add_comm. f_equal. f_equal.
    apply map_filter_ext. intros h s _. simpl. unfold expired.
    rewrite Z.ltb_ge. lia.
Qed.

End cleanup.

(** ** The example deployment, evaluated *)

Section evaluated.
Import jwtauth auth spec example.

Lemma minted0 : minted_refresh cfg0 "admin" w0 = refresh0.
Proof. vm_compute. reflexivity. Qed.

Lemma login0 :
  CreateSession cfg0 "admin" "curl" w0 = (Ok (access0, refresh0), w1).
Proof.
  rewrite CreateSession_eq.
  change (List.length (entropy w0) <? 32)%nat with false. cbv iota.
  unfold minted_session. rewrite minted0. reflexivity.
Qed.

Lemma never_minted_refresh0 : never_minted refresh0 (entropy w1).
Proof.
  intros x [= <-]. vm_compute.
  intros H. repeat (apply elem_of_cons in H as [H|H]; [discriminate H|]).
  by apply elem_of_nil in H.
Qed.

End evaluated.

(** ** Logout *)

Section logout.
Import jwtauth auth spec example.

Lemma Logout_world env r w : (handlers.Logout env r w).2 = w.
Proof. reflexivity. Qed.

(** C1. After a login, a logout request that carries the refresh token
    leaves the session filed, and a refresh with that token still succeeds
    and rotates it. *)
Theorem Logout_keeps_session :
  let r := request [("refresh_token", refresh0)] in
  let w := (handlers.Logout ∅ r w1).2 in
  CreateSession cfg0 "admin" "curl" w0 = (Ok (access0, refresh0), w1)
  ∧ sessions w !! refresh0 = Some session0
  ∧ is_ok (RefreshSession cfg0 refresh0 "curl" w).1 = true.
Proof. split; [exact login0|]. split; vm_compute; reflexivity. Qed.

End logout.

(** ** What the store files sessions under *)

Section registry_keys.
Import jwtauth auth spec example service.

Lemma store_ok_empty cfg w : sessions w = ∅ → store_ok cfg w.
Proof. intros E k s. by rewrite E, lookup_empty. Qed.

Lemma CreateSession_files cfg u ua w a r w' :
  CreateSession cfg u ua w = (Ok (a, r), w') →
  r = minted_refresh cfg u w ∧
  sessions w' !! r = Some (minted_session cfg u ua w).
Proof.
  rewrite CreateSession_eq.
  destruct (List.length (entropy w) <? 32)%nat; [done|].
  intros [= <- <- <-]. split; [done|]. simpl. apply lookup_insert_eq.
Qed.

(** C3, the claim refuted: the session made by a login is filed under the
    very refresh token handed to the client, and records it. *)
Lemma registry_key_is_raw_token :
  ∃ a r w' s,
    CreateSession cfg0 "admin" "curl" w0 = (Ok (a, r), w')
    ∧ sessions w' !! r = Some s
    ∧ RefreshTokenHash s = r
    ∧ is_ok (Decode (RefreshTokenAuth cfg0) (RefreshTokenHash s)) = true.
Proof.
  exists access0, refresh0, w1, session0.
  split; [exact login0|]. repeat split; vm_compute; reflexivity.
Qed.

(** C3, amended. [hashToken] is the identity, so in every state reached
    from an empty store each session is filed under, and records, a
    refresh token of its owner that [Decode] accepts; and a successful
    [CreateSession] or [RefreshSession] files the new session under the
    refresh token it returns. *)
Theorem registry_key_is_refresh_token
    (env : gmap string string) (cfg : Config) (w : World) (cs : list call) :
  sessions w = ∅ →
  let w1 := run env cfg w cs in
  (∀ t, hashToken t = t)
  ∧ store_ok cfg w1
  ∧ (∀ u ua a r w2,
       CreateSession cfg u ua w1 = (Ok (a, r), w2) →
       ∃ s, sessions w2 !! r = Some s ∧ RefreshTokenHash s = r ∧ Username s = u)
  ∧ (∀ t ua a r w2,
       RefreshSession cfg t ua w1 = (Ok (a, r), w2) →
       ∃ s, sessions w2 !! r = Some s ∧ RefreshTokenHash s = r).
Proof.
  intros E. simpl. split; [done|]. split.
  { apply run_store_ok. by apply store_ok_empty. }
  split.
  - intros u ua a r w2 H. apply CreateSession_files in H as [-> H].
    eexists; split; [exact H|done].
  - intros t ua a r w2. unfold RefreshSession, hashToken.
    destruct (sessions _ !! t); [|done].
    destruct (Decode (RefreshTokenAuth cfg) t) as [c| |]; [|done..].
    destruct (username c) as [[x|n]|]; [|done..].
    intros H. apply CreateSession_files in H as [-> H].
    eexists; split; [exact H|done].
Qed.

Lemma registry_key_is_refresh_token_witness :
  store_ok cfg0 (run ∅ cfg0 w0 [Login "admin" "curl"]).
Proof.
  apply (registry_key_is_refresh_token ∅ cfg0 w0 [Login "admin" "curl"]).
  reflexivity.
Defined.

End registry_keys.

(** ** Rotation *)

Section rotation.
Import jwtauth auth spec example service.

Lemma RefreshSession_rotates cfg t ua w s c x :
  sessions w !! t = Some s →
  Decode (RefreshTokenAuth cfg) t = Ok c →
  username c = Some (CStr x) →
  RefreshSession cfg t ua w
  = CreateSession cfg x ua (set_sessions (delete t (sessions w)) w).
Proof.
  intros Hs Hd Hu. unfold RefreshSession, hashToken, RevokeSession.
  by rewrite Hs, Hd, Hu.
Qed.

Lemma minted1 :
  minted_refresh cfg0 "admin" (mkWorld ∅ (clock w1) (entropy w1)) = refresh1.
Proof. vm_compute. reflexivity. Qed.

Lemma rotate0 :
  RefreshSession cfg0 refresh0 "curl" w1 = (Ok (access0, refresh1), w2).
Proof.
  erewrite RefreshSession_rotates;
    [|apply lookup_singleton_eq|reflexivity|reflexivity].
  unfold set_sessions. cbn [sessions w1].
  rewrite delete_singleton_eq, CreateSession_eq.
  change (List.length (entropy (mkWorld ∅ (clock w1) (entropy w1))) <? 32)%nat
    with false. cbv iota.
  unfold minted_session. rewrite minted1. cbn [sessions clock entropy].
  rewrite insert_empty. reflexivity.
Qed.

Lemma RefreshSession_Ok_gone cfg t ua w a r w' :
  RefreshSession cfg t ua w = (Ok (a, r), w') →
  never_minted t (entropy w) → gone t w'.
Proof.
  unfold RefreshSession, hashToken, RevokeSession. intros H Hm.
  destruct (sessions w !! t); [|done].
  destruct (Decode (RefreshTokenAuth cfg) t) as [c| |]; [|done..].
  destruct (username c) as [[x|n]|]; [|done..].
  replace w' with (CreateSession cfg x ua (set_sessions (delete t (sessions w)) w)).2
    by (by rewrite H).
  apply CreateSession_gone. split; [|done]. apply lookup_delete_eq.
Qed.

(** C4. Once [RefreshSession] has succeeded on a refresh token, every
    later [RefreshSession] with that token, after any further calls and
    any lapse of time, returns an error and leaves the world as it is
    (nothing is issued), whatever the token's signature and expiry; the
    random source is taken not to produce the token's id a second time. *)
Theorem refresh_token_single_use
    (env : gmap string string) (cfg : Config) (w : World) (t : tokenString)
    (ua : string) (a r : tokenString) (w' : World) (cs : list call) (ua' : string) :
  RefreshSession cfg t ua w = (Ok (a, r), w') →
  never_minted t (entropy w) →
  let w'' := run env cfg w' cs in
  RefreshSession cfg t ua' w'' = (Err "invalid or expired refresh token", w'').
Proof.
  intros H Hm. simpl. apply RefreshSession_absent.
  apply (run_gone env cfg t cs w'). by eapply RefreshSession_Ok_gone.
Qed.

Lemma refresh_token_single_use_witness :
  let cs := [Sleep time.Second; Login "admin" "firefox"; Cleanup] in
  RefreshSession cfg0 refresh0 "safari" (run ∅ cfg0 w2 cs)
  = (Err "invalid or expired refresh token", run ∅ cfg0 w2 cs).
Proof.
  apply (refresh_token_single_use ∅ cfg0 w1 refresh0 "curl" access0 refresh1 w2).
  - exact rotate0.
  - exact never_minted_refresh0.
Defined.

(** C5. A filed refresh token past its expiry is not treated as failing
    verification. A quarter of an hour after the refresh duration has run
    out, between two hourly clean-up passes, the token of a login is still
    filed, its [exp] claim lies in the past and [VerifyToken] rejects it,
    yet [RefreshSession], which only calls [Decode], returns no error and
    issues a new pair of tokens. *)
Theorem refresh_rotates_expired_token :
  let w := run ∅ cfg0 w0 stale_run in
  sessions w !! hashToken refresh0 = Some session0
  ∧ (exp <$> Decode_claims cfg0 refresh0) = Some (Some 1700604800)
  ∧ 1700604800 < time.Unix (clock w)
  ∧ failed (VerifyToken (RefreshTokenAuth cfg0) refresh0 (clock w))
  ∧ is_ok (RefreshSession cfg0 refresh0 "curl" w).1 = true.
Proof.
  repeat split; try (vm_compute; reflexivity).
Qed.

End rotation.

(** ** Revoking all sessions of a user *)

Section revoke_all.
Import jwtauth auth spec example service.

(** C9. [RevokeAllUserSessions u] deletes every session owned by [u] and
    leaves every other session filed and unchanged; afterwards a
    [RefreshSession] with a token whose session, if any, belonged to [u]
    fails, at once and (the random source not producing the token's id
    again) after any further calls. *)
Theorem RevokeAllUserSessions_frame
    (env : gmap string string) (cfg : Config) (u : string) (w : World) :
  let w1 := set_sessions (RevokeAllUserSessions u (sessions w)) w in
  (∀ h, sessions w1 !! h
        = match sessions w !! h with
          | Some s => if decide (Username s = u) then None else Some s
          | None => None
          end)
  ∧ (∀ t ua,
       (∀ s, sessions w !! t = Some s → Username s = u) →
       RefreshSession cfg t ua w1 = (Err "invalid or expired refresh token", w1))
  ∧ (∀ t ua cs,
       (∀ s, sessions w !! t = Some s → Username s = u) →
       never_minted t (entropy w) →
       let w2 := run env cfg w1 cs in
       RefreshSession cfg t ua w2 = (Err "invalid or expired refresh token", w2)).
Proof.
  simpl.
  assert (L : ∀ h, RevokeAllUserSessions u (sessions w) !! h
              = match sessions w !! h with
                | Some s => if decide (Username s = u) then None else Some s
                | None => None
                end).
  { intros h. unfold RevokeAllUserSessions. rewrite range_delete_lookup.
    destruct (sessions w !! h) as [s|]; [|done].
    by destruct (decide (Username s = u));
      [rewrite bool_decide_eq_true_2|rewrite bool_decide_eq_false_2]. }
  assert (G : ∀ t, (∀ s, sessions w !! t = Some s → Username s = u) →
              RevokeAllUserSessions u (sessions w) !! t = None).
  { intros t Ht. rewrite L. destruct (sessions w !! t) as [s|] eqn:E; [|done].
    by rewrite decide_True by by apply Ht. }
  split; [exact L|]. split.
  - intros t ua Ht. apply RefreshSession_absent. simpl. by apply G.
  - intros t ua cs Ht Hm. apply RefreshSession_absent.
    apply (run_gone env cfg t cs). split; [|done]. simpl. by apply G.
Qed.

Lemma RevokeAllUserSessions_frame_witness :
  let w := set_sessions (RevokeAllUserSessions "admin" (sessions w1)) w1 in
  RefreshSession cfg0 refresh0 "curl" w
  = (Err "invalid or expired refresh token", w).
Proof.
  apply (proj1 (proj2 (RevokeAllUserSessions_frame ∅ cfg0 "admin" w1))).
  intros s. cbn [sessions w1]. rewrite lookup_singleton_eq.
  intros [= <-]. reflexivity.
Defined.

End revoke_all.

(** ** Credentials and start-up *)

Section startup.
Import jwtauth auth spec example.

(** C6. [ValidateCredentials] fails exactly for an unknown username or a
    password that does not match the stored hash, and in both cases with
    the same error, [invalid credentials]: any two failing calls return
    equal errors. *)
Theorem invalid_credentials_uniform
    (CompareHashAndPassword : string → string → error)
    (us : gmap string users.User) :
  (∀ u p, users.ValidateCredentials CompareHashAndPassword us u p ≠ None
          ↔ (us !! u = None
             ∨ ∃ usr e, us !! u = Some usr
                        ∧ CompareHashAndPassword (users.PasswordHash usr) p = Some e))
  ∧ (∀ u p, users.ValidateCredentials CompareHashAndPassword us u p ≠ None →
            users.ValidateCredentials CompareHashAndPassword us u p
            = Some "invalid credentials")
  ∧ (∀ u1 p1 u2 p2,
       users.ValidateCredentials CompareHashAndPassword us u1 p1 ≠ None →
       users.ValidateCredentials CompareHashAndPassword us u2 p2 ≠ None →
       users.ValidateCredentials CompareHashAndPassword us u1 p1
       = users.ValidateCredentials CompareHashAndPassword us u2 p2).
Proof.
  assert (U : ∀ u p,
    users.ValidateCredentials CompareHashAndPassword us u p ≠ None →
    users.ValidateCredentials CompareHashAndPassword us u p
    = Some "invalid credentials").
  { intros u p. unfold users.ValidateCredentials.
    destruct (us !! u) as [usr|]; [|done].
    by destruct (CompareHashAndPassword (users.PasswordHash usr) p). }
  split; [|split; [exact U|]].
  - intros u p. unfold users.ValidateCredentials.
    destruct (us !! u) as [usr|]; [|split; [by left|done]].
    destruct (CompareHashAndPassword (users.PasswordHash usr) p) as [e|] eqn:E.
    + split; [intros _; right; by exists usr, e|done].
    + split; [done|]. intros [H|(usr' & e & H1 & H2)]; [done|].
      injection H1 as <-. congruence.
  - intros u1 p1 u2 p2 H1 H2. by rewrite (U _ _ H1), (U _ _ H2).
Qed.

Lemma invalid_credentials_uniform_witness :
  users.ValidateCredentials CompareHashAndPassword users0 "ghost" "devpass123"
  = users.ValidateCredentials CompareHashAndPassword users0 "admin" "letmein1".
Proof.
  apply (proj2 (proj2 (invalid_credentials_uniform CompareHashAndPassword users0)));
    vm_compute; discriminate.
Defined.

(** C2, the claim refuted: with no signing secret set and an access
    duration (168h) above the refresh duration (5m), both initialisers
    return without error. *)
Lemma startup_accepts_missing_secrets_and_inverted_durations :
  os.Getenv env0 "JWT_ACCESS_SECRET" = ""
  ∧ os.Getenv env0 "JWT_REFRESH_SECRET" = ""
  ∧ (users.InitializeUsers GenerateFromPassword env0 ∅).1 = None
  ∧ ∃ cfg, Initialize ParseDuration env0 = Ok cfg
           ∧ AccessTokenDuration cfg = 168 * time.Hour
           ∧ RefreshTokenDuration cfg = 5 * time.Minute
           ∧ RefreshTokenDuration cfg ≤ AccessTokenDuration cfg.
Proof.
  split; [vm_compute; reflexivity|]. split; [vm_compute; reflexivity|].
  split; [vm_compute; reflexivity|].
  eexists. split; [vm_compute; reflexivity|].
  split; [reflexivity|]. split; [reflexivity|]. vm_compute. discriminate.
Qed.

(** C2, amended. [InitializeUsers] returns an error whenever the admin
    username or the admin password is absent.  [Initialize] returns an
    error exactly when one of the two duration strings (the variable, or
    its default when unset) does not parse: a missing signing secret is
    replaced by the built-in default, and the two durations are not
    compared. *)
Theorem startup_errors
    (GenerateFromPassword : string → result string)
    (ParseDuration : string → result time.Duration)
    (env : gmap string string) (us : gmap string users.User) :
  (os.Getenv env "ADMIN_USERNAME" = "" ∨ os.Getenv env "ADMIN_PASSWORD" = "" →
   is_Some (users.InitializeUsers GenerateFromPassword env us).1)
  ∧ (failed (Initialize ParseDuration env)
     ↔ failed (ParseDuration (access_duration_text env))
       ∨ failed (ParseDuration (refresh_duration_text env)))
  ∧ (∀ cfg, Initialize ParseDuration env = Ok cfg →
       (os.Getenv env "JWT_ACCESS_SECRET" = "" →
        signKey (AccessTokenAuth cfg)
        = "default-access-secret-change-this-in-production")
       ∧ (os.Getenv env "JWT_REFRESH_SECRET" = "" →
          signKey (RefreshTokenAuth cfg)
          = "default-refresh-secret-change-this-in-production")
       ∧ ParseDuration (access_duration_text env) = Ok (AccessTokenDuration cfg)
       ∧ ParseDuration (refresh_duration_text env) = Ok (RefreshTokenDuration cfg)).
Proof.
  split; [|split].
  - unfold users.InitializeUsers. intros [H|H].
    + rewrite decide_True by done. by eexists.
    + destruct (decide (os.Getenv env "ADMIN_USERNAME" = "")); [by eexists|].
      rewrite decide_True by done. by eexists.
  - unfold Initialize, access_duration_text, refresh_duration_text.
    cbv zeta.
    destruct (ParseDuration _) as [a| |]; simpl; [|tauto..].
    destruct (ParseDuration _) as [b| |]; simpl; tauto.
  - intros cfg. unfold Initialize, access_duration_text, refresh_duration_text.
    cbv zeta.
    destruct (ParseDuration _) as [a| |]; [|done..].
    destruct (ParseDuration _) as [b| |]; [|done..].
    intros [= <-]. simpl. repeat split; intros H; by rewrite decide_True.
Qed.

Lemma startup_errors_witness :
  is_Some (users.InitializeUsers GenerateFromPassword ∅ ∅).1.
Proof.
  apply (proj1 (startup_errors GenerateFromPassword ParseDuration ∅ ∅)).
  left. reflexivity.
Defined.

End startup.

(** ** The request guard *)

Section guard.
Import jwtauth auth spec example http middleware.

Lemma Unix_mono t u : t ≤ u → time.Unix t ≤ time.Unix u.
Proof. intros H. unfold time.Unix. apply Z.div_le_mono; [reflexivity|exact H]. Qed.

(** The guard on a token minted by [GenerateAccessToken] in world [wi],
    presented in a world [w] that is not earlier. *)
Lemma Protected_minted cfg u wi next r w :
  GetCookie r "access_token" = Some (minted_access cfg u wi) →
  clock wi ≤ clock w →
  Protected cfg next r w
  = if unset (time.Unix (time.Add (clock wi) (AccessTokenDuration cfg)))
       || (time.Unix (clock w)
           <? time.Unix (time.Add (clock wi) (AccessTokenDuration cfg)))
    then next (passed_on r (access_claims cfg u wi) u) w
    else (invalid_token, w).
Proof.
  intros Hc Ht. unfold Protected. rewrite Hc.
  unfold VerifyToken, minted_access, Decode. rewrite decide_True by done.
  unfold Validate, isIssuedAtValid, isExpirationValid, time.Before.
  cbn [access_claims iat exp username].
  apply Unix_mono in Ht.
  destruct (Z.ltb_spec (time.Unix (clock w)) (time.Unix (clock wi))); [lia|].
  rewrite orb_true_r. cbn [negb].
  by destruct (unset _ || _).
Qed.

(** C8, the claim refuted: the token issued at 0.7 s past a whole second
    with [expiresAt] 300.7 s later is rejected 300.2 s after it was issued,
    half a second before [expiresAt]. *)
Lemma access_token_rejected_before_expiresAt :
  let wv := mkWorld ∅ 1700000300200000000 [] in
  GenerateAccessToken cfg0 "admin" w0 = (Ok (access0, 1700000300700000000), w0)
  ∧ clock w0 ≤ clock wv
  ∧ clock wv < 1700000300700000000
  ∧ Protected cfg0 handlers.Me (request [("access_token", access0)]) wv
    = (invalid_token, wv).
Proof.
  simpl. split; [reflexivity|]. split; [vm_compute; discriminate|].
  split; [reflexivity|]. reflexivity.
Qed.

(** C8, amended. A token issued by [GenerateAccessToken] with expiry
    [expiresAt] carries [expiresAt] cut to whole seconds, and the guard
    compares whole seconds, strictly: presented at a time [t] not before
    its issue, the token is accepted when the second of [t] is before the
    second of [expiresAt], and rejected otherwise, in particular whenever
    [t ≥ expiresAt]. The one exception is an [expiresAt] whose second the
    validator takes as not set (the epoch second, or the start of year 1):
    such a token has no expiry and is always accepted. *)
Theorem access_token_expiry
    (cfg : Config) (u : string) (w : World) (tok : tokenString)
    (expiresAt : time.Time) (w' : World) (next : Handler) (r : Request)
    (wv : World) :
  GenerateAccessToken cfg u w = (Ok (tok, expiresAt), w') →
  GetCookie r "access_token" = Some tok →
  clock w ≤ clock wv →
  expiresAt = time.Add (clock w) (AccessTokenDuration cfg)
  ∧ (unset (time.Unix expiresAt) = true
     ∨ time.Unix (clock wv) < time.Unix expiresAt →
     Protected cfg next r wv = next (passed_on r (access_claims cfg u w) u) wv)
  ∧ (unset (time.Unix expiresAt) = false →
     time.Unix expiresAt ≤ time.Unix (clock wv) →
     Protected cfg next r wv = (invalid_token, wv))
  ∧ (unset (time.Unix expiresAt) = false →
     expiresAt ≤ clock wv →
     Protected cfg next r wv = (invalid_token, wv)).
Proof.
  rewrite GenerateAccessToken_eq. intros [= <- <- <-] Hc Ht.
  rewrite (Protected_minted cfg u w next r wv Hc Ht).
  split; [done|].
  destruct (unset _) eqn:Eu; cbn [orb].
  { split; [done|]. by split. }
  destruct (Z.ltb_spec (time.Unix (clock wv))
              (time.Unix (time.Add (clock w) (AccessTokenDuration cfg)))).
  - split; [done|]. split; [lia|]. intros _ H'. apply Unix_mono in H'. lia.
  - split; [intros [?|?]; [done|lia]|]. by split.
Qed.

Lemma access_token_expiry_witness :
  let wv := mkWorld ∅ 1700000300700000000 [] in
  Protected cfg0 handlers.Me (request [("access_token", access0)]) wv
  = (invalid_token, wv).
Proof.
  apply (access_token_expiry cfg0 "admin" w0 access0 1700000300700000000 w0
           handlers.Me (request [("access_token", access0)])
           (mkWorld ∅ 1700000300700000000 [])).
  - reflexivity.
  - reflexivity.
  - vm_compute. discriminate.
  - reflexivity.
  - vm_compute. discriminate.
Defined.

(** C10. The guard never looks at the session store: in two worlds that
    agree on the clock, whatever their stores, the same request is either
    rejected with the same response or handed on with the same context.
    So the access token of a login is still accepted, while its second of
    expiry has not come, after the session made by that login has been
    revoked. *)
Theorem guard_ignores_registry
    (cfg : Config) (next : Handler) (r : Request) (w1 w2 : World) :
  clock w1 = clock w2 →
  ((∃ resp, Protected cfg next r w1 = (resp, w1)
            ∧ Protected cfg next r w2 = (resp, w2))
   ∨ (∃ r', Protected cfg next r w1 = next r' w1
            ∧ Protected cfg next r w2 = next r' w2))
  ∧ (∀ u ua a rt,
       CreateSession cfg u ua w1 = (Ok (a, rt), w2) →
       GetCookie r "access_token" = Some a →
       ∀ d,
         0 ≤ d →
         time.Unix (time.Add (clock w2) d)
         < time.Unix (time.Add (clock w1) (AccessTokenDuration cfg)) →
         let later := mkWorld (RevokeSession (hashToken rt) (sessions w2))
                       (time.Add (clock w2) d) (entropy w2) in
         sessions later !! hashToken rt = None
         ∧ Protected cfg next r later
           = next (passed_on r (access_claims cfg u w1) u) later).
Proof.
  intros Hclk. split.
  - unfold Protected. rewrite Hclk.
    destruct (GetCookie r "access_token") as [v|]; [|left; by eexists].
    destruct (VerifyToken (AccessTokenAuth cfg) v (clock w2)) as [c| |];
      [right; by eexists|left; by eexists..].
  - intros u ua a rt. rewrite CreateSession_eq.
    destruct (List.length (entropy w1) <? 32)%nat; [done|].
    intros [= <- <- Hw] Hc d Hd Hlt. simpl. split.
    { unfold RevokeSession. apply lookup_delete_eq. }
    rewrite (Protected_minted cfg u w1 next r _ Hc)
      by (simpl; unfold time.Add; lia).
    simpl. rewrite Hclk.
    destruct (Z.ltb_spec (time.Unix (time.Add (clock w2) d))
                (time.Unix (time.Add (clock w2) (AccessTokenDuration cfg))));
      [by rewrite orb_true_r|]. rewrite Hclk in Hlt. lia.
Qed.

Lemma guard_ignores_registry_witness :
  let r := request [("access_token", access0)] in
  (∃ resp, Protected cfg0 handlers.Me r w0 = (resp, w0)
           ∧ Protected cfg0 handlers.Me r w1 = (resp, w1))
  ∨ (∃ r', Protected cfg0 handlers.Me r w0 = handlers.Me r' w0
           ∧ Protected cfg0 handlers.Me r w1 = handlers.Me r' w1).
Proof.
  apply (guard_ignores_registry cfg0 handlers.Me
           (request [("access_token", access0)]) w0 w1).
  reflexivity.
Defined.

End guard.


(** * Further properties of the code *)

(** ** Token ids *)

Section token_ids.
Import jwtauth auth spec example service.

Lemma digit_inj m n : (m < 16)%N → (n < 16)%N → hex.digit m = hex.digit n → m = n.
Proof.
  intros Hm Hn H. apply (f_equal N_of_ascii) in H. unfold hex.digit in H.
  destruct (N.ltb_spec m 10), (N.ltb_spec n 10);
    rewrite !N_ascii_embedding in H by lia; lia.
Qed.

Lemma EncodeToString_length bs :
  String.length (hex.EncodeToString bs) = (2 * List.length bs)%nat.
Proof. induction bs as [|b bs IH]; simpl; [done|]. rewrite IH. lia. Qed.

Lemma to_N_inj a b : Byte.to_N a = Byte.to_N b → a = b.
Proof.
  intros H. pose proof (Byte.of_to_N a) as Ha. rewrite H, Byte.of_to_N in Ha.
  congruence.
Qed.

Lemma EncodeToString_inj : ∀ a b,
  hex.EncodeToString a = hex.EncodeToString b → a = b.
Proof.
  induction a as [|x a IH]; intros [|y b] H; simpl in H; try done.
  injection H as H1 H2 H3.
  pose proof (Byte.to_N_bounded x). pose proof (Byte.to_N_bounded y).
  apply digit_inj in H1; [|apply N.Div0.div_lt_upper_bound; lia..].
  apply digit_inj in H2; [|apply N.mod_lt; lia..].
  f_equal; [|by apply IH]. apply to_N_inj.
  rewrite (N.div_mod (Byte.to_N x) 16), (N.div_mod (Byte.to_N y) 16) by lia.
  by rewrite H1, H2.
Qed.

Lemma CreateSession_Ok cfg u ua w a r w' :
  CreateSession cfg u ua w = (Ok (a, r), w') →
  (32 ≤ List.length (entropy w))%nat
  ∧ sessions w' !! r = Some (mkSession u r (clock w) (clock w) ua)
  ∧ (∀ h, h ≠ r → sessions w' !! h = sessions w !! h)
  ∧ clock w' = clock w
  ∧ entropy w' = drop 32 (entropy w)
  ∧ a ≠ r.
Proof.
  rewrite CreateSession_eq.
  destruct (Nat.ltb_spec (List.length (entropy w)) 32); [done|].
  intros [= <- <- <-]. simpl. split; [done|]. split; [apply lookup_insert_eq|].
  split; [intros h Hh; by apply lookup_insert_ne|]. done.
Qed.

Lemma cleanup_lookup cfg w h :
  sessions (cleanupExpiredSessions cfg w) !! h
  = match sessions w !! h with
    | Some s => if decide (expired cfg (clock w) s) then None else Some s
    | None => None
    end.
Proof.
  simpl. rewrite range_delete_lookup.
  destruct (sessions w !! h) as [s|]; [|done]. unfold expired.
  destruct (Z.ltb_spec (RefreshTokenDuration cfg) (time.Sub (clock w) (CreatedAt s)));
    [by rewrite decide_True|by rewrite decide_False by lia].
Qed.

(** X1. Given the [n] bytes it asks of the random source,
    [generateRandomString n] consumes exactly those bytes, touches nothing
    else, and returns a string of [2 n] characters; two calls return the
    same string only if they read the same bytes. *)
Theorem generateRandomString_ids (n : nat) (w1 w2 : World) :
  (n ≤ List.length (entropy w1))%nat →
  (n ≤ List.length (entropy w2))%nat →
  ∃ id1 id2,
    generateRandomString n w1
    = (Ok id1, mkWorld (sessions w1) (clock w1) (drop n (entropy w1)))
    ∧ generateRandomString n w2
      = (Ok id2, mkWorld (sessions w2) (clock w2) (drop n (entropy w2)))
    ∧ String.length id1 = (2 * n)%nat
    ∧ (id1 = id2 ↔ take n (entropy w1) = take n (entropy w2)).
Proof.
  unfold generateRandomString. intros H1 H2.
  destruct (Nat.ltb_spec (List.length (entropy w1)) n); [lia|].
  destruct (Nat.ltb_spec (List.length (entropy w2)) n); [lia|].
  eexists _, _. split; [done|]. split; [done|]. split.
  - rewrite EncodeToString_length, length_take. lia.
  - split; [apply EncodeToString_inj|by intros ->].
Qed.

Lemma generateRandomString_ids_witness :
  ∃ id1 id2,
    generateRandomString 32 w0
    = (Ok id1, mkWorld (sessions w0) (clock w0) (drop 32 (entropy w0)))
    ∧ generateRandomString 32 w1
      = (Ok id2, mkWorld (sessions w1) (clock w1) (drop 32 (entropy w1)))
    ∧ String.length id1 = (2 * 32)%nat
    ∧ (id1 = id2 ↔ take 32 (entropy w0) = take 32 (entropy w1)).
Proof.
  apply (generateRandomString_ids 32 w0 w1); vm_compute; lia.
Defined.

(** X2. [CreateSession] either fails, for want of 32 random bytes, and
    leaves the world as it was, or files exactly one session, under the
    refresh token it returns, with the caller's name and user agent and
    dated now; every other entry, and the clock, are untouched, and the two
    tokens returned differ. *)
Theorem CreateSession_frame (cfg : Config) (u ua : string) (w : World) :
  match CreateSession cfg u ua w with
  | (Ok (a, r), w') =>
      (32 ≤ List.length (entropy w))%nat
      ∧ sessions w' !! r = Some (mkSession u r (clock w) (clock w) ua)
      ∧ (∀ h, h ≠ r → sessions w' !! h = sessions w !! h)
      ∧ clock w' = clock w
      ∧ entropy w' = drop 32 (entropy w)
      ∧ a ≠ r
  | (_, w') => w' = w ∧ (List.length (entropy w) < 32)%nat
  end.
Proof.
  destruct (CreateSession cfg u ua w) as [[[a r]|msg|msg] w'] eqn:E.
  - exact (CreateSession_Ok cfg u ua w a r w' E).
  - rewrite CreateSession_eq in E.
    by destruct (Nat.ltb_spec (List.length (entropy w)) 32).
  - rewrite CreateSession_eq in E.
    destruct (Nat.ltb_spec (List.length (entropy w)) 32); [|done].
    by injection E as _ <-.
Qed.

Lemma store_fresh_minted cfg u ua w :
  (32 ≤ List.length (entropy w))%nat →
  store_fresh w → NoDup (future_ids (entropy w)) →
  sessions w !! minted_refresh cfg u w = None
  ∧ store_fresh (CreateSession cfg u ua w).2
  ∧ NoDup (future_ids (entropy (CreateSession cfg u ua w).2)).
Proof.
  intros Hl Hf Hn. rewrite CreateSession_eq.
  destruct (Nat.ltb_spec (List.length (entropy w)) 32); [lia|]. simpl.
  rewrite future_ids_cons in Hn by done. apply NoDup_cons in Hn as [Hh Hn].
  split; [|split; [|done]].
  - destruct (sessions w !! minted_refresh cfg u w) as [s|] eqn:E; [|done].
    exfalso. apply (never_minted_head cfg u (minted_refresh cfg u w) w Hl); [|done].
    by eapply Hf.
  - intros k s. cbn [sessions entropy]. rewrite lookup_insert. case_decide as Hk.
    + intros _ x. subst k. intros [= <-]. done.
    + intros Hs. apply never_minted_drop; [done|]. by eapply Hf.
Qed.

(** X3. Logins are never lost: from a store whose tokens the random source
    will not repeat, [M] successive logins, for any names and user agents,
    with at least [32 M] random bytes in pairwise distinct blocks, leave the
    store [M] sessions larger. *)
Theorem logins_all_registered
    (env : gmap string string) (cfg : Config) (logins : list (string * string)) :
  ∀ w : World,
    store_fresh w →
    NoDup (future_ids (entropy w)) →
    (32 * List.length logins ≤ List.length (entropy w))%nat →
    GetSessionCount (sessions (run env cfg w (map (λ p, Login p.1 p.2) logins)))
    = (GetSessionCount (sessions w) + List.length logins)%nat.
Proof.
  unfold GetSessionCount.
  induction logins as [|[u ua] logins IH]; intros w Hf Hn Hl; simpl.
  { lia. }
  simpl in Hl.
  destruct (store_fresh_minted cfg u ua w) as (Hm & Hf' & Hn'); [lia|done..|].
  rewrite IH; [|done..|].
  - rewrite CreateSession_eq.
    destruct (Nat.ltb_spec (List.length (entropy w)) 32); [lia|]. simpl.
    rewrite map_size_insert_None by done. lia.
  - rewrite CreateSession_eq.
    destruct (Nat.ltb_spec (List.length (entropy w)) 32); [lia|]. simpl.
    rewrite length_drop. lia.
Qed.

Lemma logins_all_registered_witness :
  GetSessionCount
    (sessions (run ∅ cfg0 w0 (map (λ p, Login p.1 p.2)
                                 [("admin", "curl"); ("admin", "firefox")])))
  = (GetSessionCount (sessions w0) + 2)%nat.
Proof.
  apply (logins_all_registered ∅ cfg0 [("admin", "curl"); ("admin", "firefox")] w0).
  - intros k s. cbn [sessions w0]. by rewrite lookup_empty.
  - apply (bool_decide_unpack _). vm_compute. reflexivity.
  - vm_compute. lia.
Defined.

End token_ids.

(** ** Rotation, in detail *)

Section rotation_detail.
Import jwtauth auth spec example service.

(** X4. A successful [RefreshSession] removes the entry of the presented
    token and files one new session under the returned refresh token: its
    owner is the [username] claim of the presented token, its user agent the
    caller's, and it is dated now, so its age starts again; every other
    entry and the clock are untouched. *)
Theorem RefreshSession_rotation_frame
    (cfg : Config) (t : tokenString) (ua : string) (w : World)
    (a r : tokenString) (w' : World) :
  RefreshSession cfg t ua w = (Ok (a, r), w') →
  ∃ c x,
    is_Some (sessions w !! t)
    ∧ Decode (RefreshTokenAuth cfg) t = Ok c
    ∧ username c = Some (CStr x)
    ∧ sessions w' !! r = Some (mkSession x r (clock w) (clock w) ua)
    ∧ (r ≠ t → sessions w' !! t = None)
    ∧ (∀ h, h ≠ r → h ≠ t → sessions w' !! h = sessions w !! h)
    ∧ clock w' = clock w.
Proof.
  unfold RefreshSession, hashToken, RevokeSession.
  destruct (sessions w !! t) as [s|] eqn:Es; [|done].
  destruct (Decode (RefreshTokenAuth cfg) t) as [c| |]; [|done..].
  destruct (username c) as [[x|n]|] eqn:Eu; [|done..].
  intros H. exists c, x.
  apply CreateSession_Ok in H as (_ & Hr & Hf & Hc & _ & _). simpl in *.
  split; [by eexists|]. split; [done|]. split; [done|]. split; [done|].
  split; [|split; [|done]].
  - intros Hne. rewrite Hf by done. apply lookup_delete_eq.
  - intros h Hr' Ht. rewrite Hf by done. by apply lookup_delete_ne.
Qed.

Lemma RefreshSession_rotation_frame_witness :
  ∃ c x,
    is_Some (sessions w1 !! refresh0)
    ∧ Decode (RefreshTokenAuth cfg0) refresh0 = Ok c
    ∧ username c = Some (CStr x)
    ∧ sessions w2 !! refresh1 = Some (mkSession x refresh1 (clock w1) (clock w1) "curl")
    ∧ (refresh1 ≠ refresh0 → sessions w2 !! refresh0 = None)
    ∧ (∀ h, h ≠ refresh1 → h ≠ refresh0 → sessions w2 !! h = sessions w1 !! h)
    ∧ clock w2 = clock w1.
Proof.
  apply (RefreshSession_rotation_frame cfg0 refresh0 "curl" w1 access0 refresh1 w2).
  exact rotate0.
Defined.

(** X6. Rotation keeps the number of sessions: after a successful
    [RefreshSession] whose new refresh token was not already filed, the
    store holds as many sessions as before. *)
Theorem RefreshSession_keeps_count
    (cfg : Config) (t : tokenString) (ua : string) (w : World)
    (a r : tokenString) (w' : World) :
  RefreshSession cfg t ua w = (Ok (a, r), w') →
  sessions w !! r = None →
  GetSessionCount (sessions w') = GetSessionCount (sessions w).
Proof.
  unfold RefreshSession, hashToken, RevokeSession, GetSessionCount.
  destruct (sessions w !! t) as [s|] eqn:Es; [|done].
  destruct (Decode (RefreshTokenAuth cfg) t) as [c| |]; [|done..].
  destruct (username c) as [[x|n]|] eqn:Eu; [|done..].
  rewrite CreateSession_eq. simpl.
  destruct (List.length (entropy w) <? 32)%nat; [done|].
  intros [= <- <- <-] Hr. simpl.
  rewrite map_size_insert_None by (by apply lookup_delete_None; right).
  rewrite map_size_delete_Some by by eexists.
  assert (size (sessions w) ≠ 0%nat) by (by eapply map_size_ne_0_lookup_2; eexists).
  lia.
Qed.

Lemma RefreshSession_keeps_count_witness :
  GetSessionCount (sessions w2) = GetSessionCount (sessions w1).
Proof.
  apply (RefreshSession_keeps_count cfg0 refresh0 "curl" w1 access0 refresh1 w2).
  - exact rotate0.
  - vm_compute. reflexivity.
Defined.

End rotation_detail.

(** ** The clean-up pass and the age of sessions *)

Section ages.
Import jwtauth auth spec example service.

(** A property of entries that every newly made session has holds of the
    whole store after any run. *)
Section entries.
Variable env : gmap string string.
Variable cfg : Config.
Variable P : tokenString → Session → Prop.
Hypothesis P_minted : ∀ u ua w,
  P (minted_refresh cfg u w) (minted_session cfg u ua w).

Lemma CreateSession_entries u ua w :
  every_entry P w → every_entry P (CreateSession cfg u ua w).2.
Proof.
  intros H. rewrite CreateSession_eq.
  destruct (List.length (entropy w) <? 32)%nat; [done|].
  intros k s. simpl. rewrite lookup_insert. case_decide as Hk.
  - intros [= <-]. subst k. apply P_minted.
  - apply H.
Qed.

Lemma step_entries w c : every_entry P w → every_entry P (step env cfg w c).
Proof.
  intros H. destruct c; simpl.
  - by apply CreateSession_entries.
  - unfold RefreshSession, hashToken, RevokeSession.
    assert (every_entry P (set_sessions (delete token (sessions w)) w)) as Hd.
    { intros k s. simpl. intros [_ Hl]%lookup_delete_Some. by apply H. }
    destruct (sessions w !! token); [|done].
    destruct (Decode (RefreshTokenAuth cfg) token) as [c| |]; [|done..].
    destruct (username c) as [[x|n]|]; [|done..].
    by apply CreateSession_entries.
  - done.
  - intros k s. simpl. unfold RevokeSession.
    intros [_ Hl]%lookup_delete_Some. by apply H.
  - intros k s. simpl. unfold RevokeAllUserSessions. rewrite range_delete_lookup.
    destruct (sessions w !! k) as [s'|] eqn:E; [|done].
    destruct (bool_decide _); [done|]. intros [= <-]. by apply H.
  - intros k s. simpl. rewrite range_delete_lookup.
    destruct (sessions w !! k) as [s'|] eqn:E; [|done].
    destruct (_ <? _); [done|]. intros [= <-]. by apply H.
  - done.
Qed.

Lemma run_entries cs : ∀ w, every_entry P w → every_entry P (run env cfg w cs).
Proof.
  induction cs as [|c cs IH]; intros w H; [done|].
  simpl. apply IH. by apply step_entries.
Qed.

End entries.

Lemma Sub_Add t d : 0 ≤ d ≤ time.maxDuration → time.Sub (time.Add t d) t = d.
Proof.
  unfold time.Sub, time.Add, time.maxDuration, time.minDuration. intros Hd.
  replace (t + d - t) with d by lia.
  destruct (Z.ltb_spec (2 ^ 63 - 1) d); [lia|].
  destruct (Z.ltb_spec d (- 2 ^ 63)); lia.
Qed.

Lemma Sub_exceeds now created d :
  time.minDuration ≤ d → d < time.Sub now created → time.Add created d < now.
Proof.
  unfold time.Sub, time.Add, time.maxDuration, time.minDuration.
  intros Hd. destruct (Z.ltb_spec (2 ^ 63 - 1) (now - created)); [lia|].
  destruct (Z.ltb_spec (now - created) (- 2 ^ 63)); lia.
Qed.

(** X7. The clean-up pass only removes sessions whose refresh token has
    expired: in any state reached from an empty store, with a refresh
    duration in the range of [time.Duration], a session that a pass removes
    is filed under a token whose [exp] claim is no longer after now. *)
Theorem cleanup_removes_only_expired_tokens
    (env : gmap string string) (cfg : Config) (w : World) (cs : list call)
    (k : tokenString) (s : Session) :
  sessions w = ∅ →
  time.minDuration ≤ RefreshTokenDuration cfg →
  let w1 := run env cfg w cs in
  sessions w1 !! k = Some s →
  sessions (cleanupExpiredSessions cfg w1) !! k = None →
  ∃ c e, Decode (RefreshTokenAuth cfg) k = Ok c
         ∧ exp c = Some e
         ∧ e ≤ time.Unix (clock w1).
Proof.
  intros E Hd w1 Hk Hgone.
  assert (entry_dated cfg k s) as (c & Hc & Hexp).
  { apply (run_entries env cfg (entry_dated cfg)) with (cs := cs) (w := w); [| |done].
    - intros u ua w'. eexists. split; [apply Decode_minted|done].
    - intros k' s'. by rewrite E, lookup_empty. }
  eexists c, _. split; [done|]. split; [exact Hexp|].
  rewrite cleanup_lookup, Hk in Hgone.
  destruct (decide (expired cfg (clock w1) s)) as [Hx|]; [|done].
  apply Unix_mono. apply Sub_exceeds in Hx; [lia|done].
Qed.

Lemma cleanup_removes_only_expired_tokens_witness :
  let cs := [Login "admin" "curl"; Sleep (169 * time.Hour)] in
  ∃ c e, Decode (RefreshTokenAuth cfg0) refresh0 = Ok c
         ∧ exp c = Some e
         ∧ e ≤ time.Unix (clock (run ∅ cfg0 w0 cs)).
Proof.
  apply (cleanup_removes_only_expired_tokens ∅ cfg0 w0
           [Login "admin" "curl"; Sleep (169 * time.Hour)] refresh0 session0).
  - reflexivity.
  - vm_compute. discriminate.
  - vm_compute. reflexivity.
  - vm_compute. reflexivity.
Defined.

(** X8. A session made by [CreateSession] outlives exactly the refresh
    duration: a clean-up pass run [d] later (a non-negative [time.Duration],
    nothing else happening in between) keeps the session if
    [d ≤ RefreshTokenDuration] and removes it otherwise. *)
Theorem cleanup_after_login
    (cfg : Config) (u ua : string) (w : World) (a r : tokenString) (w' : World)
    (d : time.Duration) :
  CreateSession cfg u ua w = (Ok (a, r), w') →
  0 ≤ d ≤ time.maxDuration →
  let later := mkWorld (sessions w') (time.Add (clock w') d) (entropy w') in
  sessions (cleanupExpiredSessions cfg later) !! r
  = if decide (d ≤ RefreshTokenDuration cfg)
    then Some (mkSession u r (clock w) (clock w) ua)
    else None.
Proof.
  intros H Hd later.
  apply CreateSession_Ok in H as (_ & Hr & _ & Hc & _).
  rewrite cleanup_lookup. subst later. cbn [sessions clock]. rewrite Hr.
  destruct (decide (expired cfg _ _)) as [Hx|Hx];
    unfold expired in Hx; cbn [CreatedAt] in Hx;
    rewrite Hc, (Sub_Add (clock w) d Hd) in Hx;
    destruct (decide (d ≤ RefreshTokenDuration cfg)); done || lia.
Qed.

Lemma cleanup_after_login_witness :
  sessions (cleanupExpiredSessions cfg0
              (mkWorld (sessions w1) (time.Add (clock w1) (168 * time.Hour))
                 (entropy w1))) !! refresh0
  = if decide (168 * time.Hour ≤ RefreshTokenDuration cfg0)
    then Some (mkSession "admin" refresh0 (clock w0) (clock w0) "curl")
    else None.
Proof.
  apply (cleanup_after_login cfg0 "admin" "curl" w0 access0 refresh0 w1
           (168 * time.Hour)).
  - exact login0.
  - vm_compute. split; discriminate.
Defined.

End ages.

(** ** The guard and the handlers, end to end *)

Section end_to_end.
Import jwtauth auth spec example service http middleware.

(** X9. The guard hands a request on only when its [access_token] cookie
    carries a valid MAC under the access key, an [exp] claim that is absent,
    not set (the epoch second or the start of year 1) or after now, and an
    [iat] claim that is absent, not set or not after now, all in whole
    seconds; in every other case it answers 401 itself, does not call the
    next handler and leaves the world untouched. *)
Theorem Protected_sound (cfg : Config) (next : Handler) (r : Request) (w : World) :
  (∃ c,
     GetCookie r "access_token"
     = Some (Signed (alg (AccessTokenAuth cfg)) (signKey (AccessTokenAuth cfg)) c)
     ∧ match exp c with
       | Some e => unset e = true ∨ time.Unix (clock w) < e
       | None => True
       end
     ∧ match iat c with
       | Some i => unset i = true ∨ i ≤ time.Unix (clock w)
       | None => True
       end
     ∧ Protected cfg next r w
       = next (WithContext r (guard_context c (ctx_username (Ctx r)))) w)
  ∨ (∃ msg, Protected cfg next r w = (Error [] msg StatusUnauthorized, w)).
Proof.
  unfold Protected.
  destruct (GetCookie r "access_token") as [[raw|a k c]|]; [by right; eexists| |by right; eexists].
  unfold VerifyToken, Decode.
  destruct (decide (a = alg (AccessTokenAuth cfg) ∧ k = signKey (AccessTokenAuth cfg)))
    as [[-> ->]|]; [|by right; eexists].
  unfold Validate.
  destruct (isIssuedAtValid c (clock w)) eqn:Ei; simpl; [|by right; eexists].
  destruct (isExpirationValid c (clock w)) eqn:Ee; simpl; [|by right; eexists].
  left. exists c. split; [done|]. split; [|split].
  - unfold isExpirationValid, time.Before in Ee.
    destruct (exp c) as [e|]; [|done].
    apply orb_true_iff in Ee as [?|?%Z.ltb_lt]; [by left|by right].
  - unfold isIssuedAtValid, time.Before in Ei.
    destruct (iat c) as [i|]; [|done].
    apply orb_true_iff in Ei as [?|?%negb_true_iff%Z.ltb_ge]; [by left|by right].
  - unfold guard_context. by destruct (username c).
Qed.

Lemma minted_not_filed (env : gmap string string) cfg w cs u wi :
  signKey (AccessTokenAuth cfg) ≠ signKey (RefreshTokenAuth cfg) →
  store_ok cfg w →
  sessions (run env cfg w cs) !! minted_access cfg u wi = None.
Proof.
  intros Hk Hok.
  destruct (sessions (run env cfg w cs) !! minted_access cfg u wi) as [s|] eqn:E;
    [|done].
  apply (run_store_ok env cfg cs w Hok) in E as (_ & c & Hd & _).
  unfold Decode, minted_access in Hd.
  by destruct (decide _) as [[_ ?]|].
Qed.

(** X10. With distinct signing keys the two tokens of a login are not
    interchangeable: the refresh token, sent as the [access_token] cookie,
    is always answered 401, and the access token, given to
    [RefreshSession], fails in every later state (the store having started
    empty). *)
Theorem tokens_not_interchangeable
    (env : gmap string string) (cfg : Config) (w : World) (cs : list call)
    (u ua : string) (a rt : tokenString) (w2 : World) :
  signKey (AccessTokenAuth cfg) ≠ signKey (RefreshTokenAuth cfg) →
  sessions w = ∅ →
  CreateSession cfg u ua (run env cfg w cs) = (Ok (a, rt), w2) →
  (∀ next r w',
     GetCookie r "access_token" = Some rt →
     Protected cfg next r w' = (invalid_token, w'))
  ∧ (∀ cs' ua',
       let w3 := run env cfg w2 cs' in
       RefreshSession cfg a ua' w3 = (Err "invalid or expired refresh token", w3)).
Proof.
  intros Hk E H. rewrite CreateSession_eq in H.
  destruct (List.length (entropy (run env cfg w cs)) <? 32)%nat eqn:El; [done|].
  injection H as <- <- Hw2. split.
  - intros next r w' Hc. unfold Protected. rewrite Hc.
    unfold VerifyToken, Decode, minted_refresh.
    by destruct (decide _) as [[_ ?]|].
  - intros cs' ua'. apply RefreshSession_absent.
    apply minted_not_filed; [done|]. subst w2.
    pose proof (CreateSession_store_ok cfg u ua (run env cfg w cs)) as Hs.
    rewrite CreateSession_eq, El in Hs. apply Hs.
    apply run_store_ok. intros k s. by rewrite E, lookup_empty.
Qed.

Lemma tokens_not_interchangeable_witness :
  Protected cfg0 handlers.Me (request [("access_token", refresh0)]) w1
  = (invalid_token, w1).
Proof.
  apply (proj1 (tokens_not_interchangeable ∅ cfg0 w0 [] "admin" "curl"
                  access0 refresh0 w1
                  ltac:(vm_compute; discriminate) eq_refl login0)).
  reflexivity.
Defined.

Lemma Protected_refresh_token cfg u wi next r w :
  AccessTokenAuth cfg = RefreshTokenAuth cfg →
  GetCookie r "access_token" = Some (minted_refresh cfg u wi) →
  clock wi ≤ clock w →
  time.Unix (clock w) < time.Unix (time.Add (clock wi) (RefreshTokenDuration cfg)) →
  Protected cfg next r w = next (passed_on r (refresh_claims cfg u wi) u) w.
Proof.
  intros Hk Hc Ht Hx. unfold Protected. rewrite Hc, Hk.
  unfold VerifyToken, minted_refresh, Decode. rewrite decide_True by done.
  unfold Validate, isIssuedAtValid, isExpirationValid, time.Before. simpl.
  apply Unix_mono in Ht.
  destruct (Z.ltb_spec (time.Unix (clock w)) (time.Unix (clock wi))); [lia|].
  destruct (Z.ltb_spec (time.Unix (clock w))
              (time.Unix (time.Add (clock wi) (RefreshTokenDuration cfg)))); [|lia].
  cbn [negb]. rewrite !orb_true_r. reflexivity.
Qed.

(** X11. [Initialize] accepts equal access and refresh secrets, and then
    the guard takes the refresh token of a login for an access token, for
    as long as the refresh token lasts. *)
Theorem shared_secret_refresh_token_passes_guard
    (ParseDuration : string → result time.Duration) (env : gmap string string)
    (cfg : Config) (u ua : string) (w : World) (a rt : tokenString) (w' : World)
    (next : Handler) (r : Request) (wv : World) :
  os.Getenv env "JWT_ACCESS_SECRET" = os.Getenv env "JWT_REFRESH_SECRET" →
  os.Getenv env "JWT_ACCESS_SECRET" ≠ "" →
  Initialize ParseDuration env = Ok cfg →
  CreateSession cfg u ua w = (Ok (a, rt), w') →
  GetCookie r "access_token" = Some rt →
  clock w ≤ clock wv →
  time.Unix (clock wv) < time.Unix (time.Add (clock w) (RefreshTokenDuration cfg)) →
  Protected cfg next r wv = next (passed_on r (refresh_claims cfg u w) u) wv.
Proof.
  intros Hs Hne Hi H Hc Ht Hx.
  assert (AccessTokenAuth cfg = RefreshTokenAuth cfg) as Hk.
  { unfold Initialize in Hi. cbv zeta in Hi.
    destruct (ParseDuration _) as [d1| |]; [|done..].
    destruct (ParseDuration _) as [d2| |]; [|done..].
    injection Hi as <-. cbn [AccessTokenAuth RefreshTokenAuth].
    rewrite <- Hs. by rewrite !decide_False by done. }
  rewrite CreateSession_eq in H.
  destruct (List.length (entropy w) <? 32)%nat; [done|].
  injection H as <- <- _. by apply Protected_refresh_token.
Qed.

Lemma shared_secret_refresh_token_passes_guard_witness :
  let r := request [("access_token", minted_refresh cfg_shared "admin" w0)] in
  let wv := mkWorld ∅ (time.Add (clock w0) time.Hour) [] in
  Protected cfg_shared handlers.Me r wv
  = handlers.Me (passed_on r (refresh_claims cfg_shared "admin" w0) "admin") wv.
Proof.
  apply (shared_secret_refresh_token_passes_guard example.ParseDuration
           env_shared cfg_shared "admin" "curl" w0
           (minted_access cfg_shared "admin" w0)
           (minted_refresh cfg_shared "admin" w0)
           (CreateSession cfg_shared "admin" "curl" w0).2).
  - vm_compute. reflexivity.
  - vm_compute. discriminate.
  - vm_compute. reflexivity.
  - rewrite CreateSession_eq. reflexivity.
  - reflexivity.
  - vm_compute. discriminate.
  - vm_compute. reflexivity.
Defined.

(** X12. After a login, [Me] behind the guard answers 200 with the login's
    user name for as long as the access token's second of expiry has not
    come, whatever has happened to the store; for the empty user name it
    answers 401 although the token is valid. *)
Theorem Me_after_login
    (cfg : Config) (u ua : string) (w : World) (a rt : tokenString) (w' : World)
    (r : Request) (wv : World) :
  CreateSession cfg u ua w = (Ok (a, rt), w') →
  GetCookie r "access_token" = Some a →
  clock w ≤ clock wv →
  time.Unix (clock wv) < time.Unix (time.Add (clock w) (AccessTokenDuration cfg)) →
  Protected cfg handlers.Me r wv
  = if decide (u = "")
    then (Error [] "Unauthorized" StatusUnauthorized, wv)
    else (mkResponse StatusOK []
            (Json [("username", JString u); ("authenticated", JBool true)]), wv).
Proof.
  intros H Hc Ht Hx. rewrite CreateSession_eq in H.
  destruct (List.length (entropy w) <? 32)%nat; [done|].
  injection H as <- _ _.
  rewrite (Protected_minted cfg u w handlers.Me r wv Hc Ht).
  destruct (Z.ltb_spec (time.Unix (clock wv))
              (time.Unix (time.Add (clock w) (AccessTokenDuration cfg)))); [|lia].
  rewrite orb_true_r. reflexivity.
Qed.

Lemma Me_after_login_witness :
  let r := request [("access_token", access0)] in
  let wv := mkWorld ∅ (time.Add (clock w0) time.Minute) [] in
  Protected cfg0 handlers.Me r wv
  = if decide ("admin" = "")
    then (Error [] "Unauthorized" StatusUnauthorized, wv)
    else (mkResponse StatusOK []
            (Json [("username", JString "admin"); ("authenticated", JBool true)]), wv).
Proof.
  apply (Me_after_login cfg0 "admin" "curl" w0 access0 refresh0 w1).
  - exact login0.
  - reflexivity.
  - vm_compute. discriminate.
  - vm_compute. reflexivity.
Defined.

End end_to_end.

(** ** The login and refresh handlers *)

Section login_handler.
Import jwtauth auth spec example service http.
Variable Seconds : time.Duration → Z.
Variable CompareHashAndPassword : string → string → error.
Variable env : gmap string string.
Variable cfg : Config.
Variable us : gmap string users.User.

(** X13. The outcomes of a login with a decodable body. Credentials that
    do not validate give 401 with no cookie and no session, whichever the
    cause. Valid credentials, the random source delivering its 32 bytes,
    give 200 with the two session cookies, the session being filed under
    the value of the refresh cookie for the request's user name and user
    agent, and every other session left as it was. *)
Theorem Login_outcomes (req : handlers.LoginRequest) (r : Request) (w : World) :
  (users.ValidateCredentials CompareHashAndPassword us
     (handlers.Username req) (handlers.Password req) ≠ None →
   handlers.Login Seconds CompareHashAndPassword env cfg us (Ok req) r w
   = (Ok (Error [] "Invalid credentials" StatusUnauthorized), w))
  ∧ (users.ValidateCredentials CompareHashAndPassword us
       (handlers.Username req) (handlers.Password req) = None →
     (32 ≤ List.length (entropy w))%nat →
     ∃ a rt resp w',
       handlers.Login Seconds CompareHashAndPassword env cfg us (Ok req) r w
       = (Ok resp, w')
       ∧ Status resp = StatusOK
       ∧ SetCookies resp = session_cookies Seconds env cfg a rt
       ∧ sessions w' !! rt
         = Some (mkSession (handlers.Username req) rt (clock w) (clock w) (UserAgent r))
       ∧ ∀ h, h ≠ rt → sessions w' !! h = sessions w !! h).
Proof.
  unfold handlers.Login. split.
  - intros H. by destruct (users.ValidateCredentials _ _ _ _).
  - intros -> Hl. rewrite CreateSession_eq.
    destruct (Nat.ltb_spec (List.length (entropy w)) 32); [lia|].
    eexists _, _, _, _. split; [done|]. split; [done|]. split; [done|]. simpl.
    split; [apply lookup_insert_eq|]. intros h Hh. by apply lookup_insert_ne.
Qed.

(** X14. Login, refresh, replay. After a successful login with two distinct
    blocks of 32 random bytes at hand, a refresh request carrying the
    refresh cookie of the login is answered 200 with a new pair of cookies
    whose refresh token differs from the old one; the same request sent
    once more is answered 401 with both cookies cleared and changes
    nothing. *)
Theorem login_refresh_replay
    (req : handlers.LoginRequest) (r r' : Request) (w : World) :
  users.ValidateCredentials CompareHashAndPassword us
    (handlers.Username req) (handlers.Password req) = None →
  (64 ≤ List.length (entropy w))%nat →
  take 32 (entropy w) ≠ take 32 (drop 32 (entropy w)) →
  ∃ a rt resp w1,
    handlers.Login Seconds CompareHashAndPassword env cfg us (Ok req) r w
    = (Ok resp, w1)
    ∧ SetCookies resp = session_cookies Seconds env cfg a rt
    ∧ (GetCookie r' "refresh_token" = Some rt →
       ∃ a' rt' resp' w2,
         handlers.Refresh Seconds env cfg r' w1 = (Ok resp', w2)
         ∧ Status resp' = StatusOK
         ∧ SetCookies resp' = session_cookies Seconds env cfg a' rt'
         ∧ rt' ≠ rt
         ∧ handlers.Refresh Seconds env cfg r' w2
           = (Ok (Error (handlers.clearAuthCookies env)
                    "Invalid or expired refresh token" StatusUnauthorized), w2)).
Proof.
  intros Hv Hl Hne. unfold handlers.Login. rewrite Hv, CreateSession_eq.
  destruct (Nat.ltb_spec (List.length (entropy w)) 32); [lia|].
  eexists _, _, _, _. split; [done|]. split; [done|].
  intros Hc. unfold handlers.Refresh. rewrite Hc.
  set (u := handlers.Username req).
  set (rt := minted_refresh cfg u w).
  set (w1 := mkWorld (<[rt := minted_session cfg u (UserAgent r) w]> (sessions w))
               (clock w) (drop 32 (entropy w))).
  erewrite (RefreshSession_rotates cfg rt (UserAgent r') w1);
    [|apply lookup_insert_eq|apply Decode_minted|reflexivity].
  set (wd := set_sessions (delete rt (sessions w1)) w1).
  assert (minted_refresh cfg u wd ≠ rt) as Hrt.
  { unfold rt, minted_refresh. intros [= Hid].
    cbn [entropy wd w1 set_sessions] in Hid.
    apply EncodeToString_inj in Hid. congruence. }
  rewrite CreateSession_eq. cbn [entropy set_sessions wd w1].
  destruct (Nat.ltb_spec (List.length (drop 32 (entropy w))) 32);
    [rewrite length_drop in *; lia|].
  eexists _, _, _, _. split; [done|]. split; [done|]. split; [done|].
  split; [done|].
  rewrite RefreshSession_absent; [done|].
  cbn [sessions]. rewrite lookup_insert_ne by done. apply lookup_delete_eq.
Qed.

End login_handler.

Section login_handler_examples.
Import jwtauth auth spec example service http.

Lemma Login_outcomes_witness :
  handlers.Login example.Seconds CompareHashAndPassword ∅ cfg0 users0
    (Ok (handlers.mkLoginRequest "ghost" "devpass123")) (request []) w0
  = (Ok (Error [] "Invalid credentials" StatusUnauthorized), w0).
Proof.
  apply (proj1 (Login_outcomes example.Seconds CompareHashAndPassword ∅ cfg0 users0
                  (handlers.mkLoginRequest "ghost" "devpass123") (request []) w0)).
  vm_compute. discriminate.
Defined.

Lemma login_refresh_replay_witness :
  ∃ a rt resp w1,
    handlers.Login example.Seconds CompareHashAndPassword ∅ cfg0 users0
      (Ok (handlers.mkLoginRequest "admin" "devpass123")) (request []) w0
    = (Ok resp, w1)
    ∧ SetCookies resp = session_cookies example.Seconds ∅ cfg0 a rt
    ∧ (GetCookie (request [("refresh_token", refresh0)]) "refresh_token" = Some rt →
       ∃ a' rt' resp' w2,
         handlers.Refresh example.Seconds ∅ cfg0 (request [("refresh_token", refresh0)]) w1
         = (Ok resp', w2)
         ∧ Status resp' = StatusOK
         ∧ SetCookies resp' = session_cookies example.Seconds ∅ cfg0 a' rt'
         ∧ rt' ≠ rt
         ∧ handlers.Refresh example.Seconds ∅ cfg0 (request [("refresh_token", refresh0)]) w2
           = (Ok (Error (handlers.clearAuthCookies ∅)
                    "Invalid or expired refresh token" StatusUnauthorized), w2)).
Proof.
  apply (login_refresh_replay example.Seconds CompareHashAndPassword ∅ cfg0 users0
           (handlers.mkLoginRequest "admin" "devpass123") (request [])
           (request [("refresh_token", refresh0)]) w0).
  - vm_compute. reflexivity.
  - vm_compute. lia.
  - vm_compute. discriminate.
Defined.

End login_handler_examples.

(** ** The user store *)

Section user_store.
Import spec example.
Variable GenerateFromPassword : string → result string.
Variable CompareHashAndPassword : string → string → error.
Hypothesis bcrypt_ok : bcrypt_sound GenerateFromPassword CompareHashAndPassword.

(** X15. [InitializeUsers] fails exactly when the admin name is empty, the
    admin password is shorter than 8 bytes (so also when it is unset), or
    hashing fails, and then leaves the user store as it was. When it
    succeeds, the admin's credentials validate, whether or not the name was
    registered before, and every other account is untouched. *)
Theorem InitializeUsers_registers_admin
    (env : gmap string string) (us : gmap string users.User) :
  let admin := os.Getenv env "ADMIN_USERNAME" in
  let password := os.Getenv env "ADMIN_PASSWORD" in
  let out := users.InitializeUsers GenerateFromPassword env us in
  (out.1 ≠ None
   ↔ admin = "" ∨ (String.length password < 8)%nat
     ∨ failed (GenerateFromPassword password))
  ∧ (out.1 ≠ None → out.2 = us)
  ∧ (out.1 = None →
     users.ValidateCredentials CompareHashAndPassword out.2 admin password = None
     ∧ ∀ u, u ≠ admin → out.2 !! u = us !! u).
Proof.
  cbv zeta. unfold users.InitializeUsers.
  destruct (decide (os.Getenv env "ADMIN_USERNAME" = "")) as [Hu|Hu].
  { simpl. split; [split; [by left|done]|]. by split. }
  destruct (decide (os.Getenv env "ADMIN_PASSWORD" = "")) as [Hp|Hp].
  { simpl. split; [split; [|done]|by split]. intros _. right. left.
    rewrite Hp. simpl. lia. }
  destruct (Nat.ltb_spec (String.length (os.Getenv env "ADMIN_PASSWORD")) 8).
  { simpl. split; [split; [by right; left|done]|by split]. }
  destruct (GenerateFromPassword (os.Getenv env "ADMIN_PASSWORD")) as [hash|e|e] eqn:E;
    simpl.
  - split; [split; [done|intros [?|[?|[]]]; [done|lia]]|]. split; [done|].
    intros _. split.
    + unfold users.ValidateCredentials. rewrite lookup_insert_eq. simpl.
      by rewrite (bcrypt_ok _ _ E).
    + intros u Hne. by apply lookup_insert_ne.
  - split; [split; [intros _; by right; right|done]|by split].
  - split; [split; [intros _; by right; right|done]|by split].
Qed.

(** X16. [AddUser] never overwrites: for a registered name it returns an
    error and changes nothing. For a new name whose password hashes, it adds
    exactly one account, whose credentials then validate, and leaves the
    validation of every other name as it was. *)
Theorem AddUser_adds_once
    (us : gmap string users.User) (u p : string) :
  (is_Some (us !! u) →
   users.AddUser GenerateFromPassword us u p = (Some "user already exists", us))
  ∧ (us !! u = None →
     ∀ hash, GenerateFromPassword p = Ok hash →
       ∃ us',
         users.AddUser GenerateFromPassword us u p = (None, us')
         ∧ users.UserExists us' u = true
         ∧ users.GetUserCount us' = S (users.GetUserCount us)
         ∧ users.ValidateCredentials CompareHashAndPassword us' u p = None
         ∧ ∀ v q, v ≠ u →
             users.ValidateCredentials CompareHashAndPassword us' v q
             = users.ValidateCredentials CompareHashAndPassword us v q).
Proof.
  unfold users.AddUser. split.
  - intros [usr ->]. done.
  - intros Hn hash E. rewrite Hn, E. eexists. split; [done|]. repeat split.
    + unfold users.UserExists. apply bool_decide_eq_true_2.
      rewrite lookup_insert_eq. by eexists.
    + unfold users.GetUserCount. by apply map_size_insert_None.
    + unfold users.ValidateCredentials. rewrite lookup_insert_eq. simpl.
      by rewrite (bcrypt_ok _ _ E).
    + intros v q Hne. unfold users.ValidateCredentials.
      by rewrite lookup_insert_ne.
Qed.

End user_store.

Section user_store_examples.
Import spec example.

Lemma bcrypt_sound_example : bcrypt_sound GenerateFromPassword CompareHashAndPassword.
Proof.
  intros password hash [= <-]. unfold CompareHashAndPassword.
  by rewrite decide_True.
Qed.

Lemma InitializeUsers_registers_admin_witness :
  users.ValidateCredentials CompareHashAndPassword
    (users.InitializeUsers GenerateFromPassword env0 ∅).2 "admin" "devpass123"
  = None.
Proof.
  apply (InitializeUsers_registers_admin GenerateFromPassword CompareHashAndPassword
           bcrypt_sound_example env0 ∅).
  vm_compute. reflexivity.
Defined.

Lemma AddUser_adds_once_witness :
  users.AddUser GenerateFromPassword users0 "admin" "hunter22"
  = (Some "user already exists", users0).
Proof.
  apply (proj1 (AddUser_adds_once GenerateFromPassword CompareHashAndPassword
                  bcrypt_sound_example users0 "admin" "hunter22")).
  eexists. apply lookup_singleton_eq.
Defined.

End user_store_examples.

(** ** The registry client and the containers of a project *)

Section registry_client.
Variable doRequest : string → result string.
Variable UnmarshalRepositories : string → result (list string).
Variable UnmarshalTags : string → result registry.TagsResponse.

Lemma collectTags_app repos : ∀ acc,
  registry.collectTags doRequest UnmarshalTags repos acc
  = acc ++ map (λ repo,
                 registry.mkRepositoryInfo repo
                   match registry.ListTags doRequest UnmarshalTags repo with
                   | Ok tags => tags
                   | _ => []
                   end) repos.
Proof.
  induction repos as [|repo repos IH]; intros acc; simpl.
  - by rewrite app_nil_r.
  - destruct (registry.ListTags doRequest UnmarshalTags repo);
      rewrite IH, <- app_assoc; reflexivity.
Qed.

(** X17. [ListRepositoriesWithTags] fails only when the catalogue itself
    cannot be listed. Otherwise it returns one entry per repository of the
    catalogue, in the catalogue's order and under its name, whose tags are
    those [ListTags] returns for it, or none when [ListTags] fails for that
    repository. *)
Theorem ListRepositoriesWithTags_spec :
  match registry.ListRepositories doRequest UnmarshalRepositories with
  | Ok repos =>
      ∃ infos,
        registry.ListRepositoriesWithTags doRequest UnmarshalRepositories UnmarshalTags
        = Ok infos
        ∧ map registry.Name infos = repos
        ∧ List.length infos = List.length repos
        ∧ ∀ info, info ∈ infos →
            registry.Tags info
            = match registry.ListTags doRequest UnmarshalTags (registry.Name info) with
              | Ok tags => tags
              | _ => []
              end
  | Err e =>
      registry.ListRepositoriesWithTags doRequest UnmarshalRepositories UnmarshalTags
      = Err e
  | Panic e =>
      registry.ListRepositoriesWithTags doRequest UnmarshalRepositories UnmarshalTags
      = Panic e
  end.
Proof.
  unfold registry.ListRepositoriesWithTags.
  destruct (registry.ListRepositories doRequest UnmarshalRepositories)
    as [repos|e|e]; [|done..].
  eexists. split; [done|]. rewrite collectTags_app. simpl.
  split; [|split].
  - rewrite map_map. simpl. apply map_id.
  - apply length_map.
  - intros info [repo [<- _]]%list_elem_of_In%in_map_iff. reflexivity.
Qed.

End registry_client.

Section containers.
Import projects.

Lemma countStates_acc cs : ∀ running stopped,
  countStates cs running stopped
  = (running + Z.of_nat (List.length (filter (λ c, State c = "running") cs)),
     stopped + Z.of_nat (List.length (filter (λ c, State c ≠ "running") cs))).
Proof.
  induction cs as [|c cs IH]; intros running stopped; simpl.
  - f_equal; lia.
  - rewrite !filter_cons. destruct (decide (State c = "running")) as [E|E].
    + rewrite decide_False by (by intros ?). rewrite IH. simpl. f_equal; lia.
    + rewrite decide_True by done. rewrite IH. simpl. f_equal; lia.
Qed.

Lemma length_filter_split (cs : list Container) :
  (List.length (filter (λ c, State c = "running") cs)
   + List.length (filter (λ c, State c ≠ "running") cs) = List.length cs)%nat.
Proof.
  induction cs as [|c cs IH]; [done|]. rewrite !filter_cons.
  destruct (decide (State c = "running")).
  - rewrite decide_False by (by intros ?). simpl. lia.
  - rewrite decide_True by done. simpl. lia.
Qed.

(** X18. [getContainerCounts] counts every listed container exactly once:
    the running count is the number of containers whose state is
    [running], the stopped count the number of all others, so the two add
    up to the length of the list; without a Docker client, or when listing
    fails, both are zero. *)
Theorem getContainerCounts_partition
    (dockerClient : option (string → result (list Container)))
    (projectName : string) :
  match dockerClient with
  | None => getContainerCounts dockerClient projectName = (0, 0)
  | Some ContainerList =>
      match ContainerList (projectFilter projectName) with
      | Ok cs =>
          ∃ running stopped,
            getContainerCounts dockerClient projectName = (running, stopped)
            ∧ running = Z.of_nat (List.length (filter (λ c, State c = "running") cs))
            ∧ running + stopped = Z.of_nat (List.length cs)
            ∧ 0 ≤ running ∧ 0 ≤ stopped
      | _ => getContainerCounts dockerClient projectName = (0, 0)
      end
  end.
Proof.
  destruct dockerClient as [ContainerList|]; [|done]. simpl.
  destruct (ContainerList (projectFilter projectName)) as [cs| |]; [|done..].
  rewrite countStates_acc. eexists _, _. split; [done|].
  pose proof (length_filter_split cs). repeat split; lia.
Qed.

Lemma substring_0_length : ∀ n s,
  (n ≤ String.length s)%nat → String.length (substring 0 n s) = n.
Proof.
  induction n as [|n IH]; intros [|c s] H; simpl in *; try done; try lia.
  by rewrite IH by lia.
Qed.

Lemma substring_0_prefix : ∀ n s, String.prefix (substring 0 n s) s = true.
Proof.
  induction n as [|n IH]; intros [|c s]; simpl; try done.
  rewrite IH. by destruct (Ascii.ascii_dec c c).
Qed.

Lemma containerInfos_acc cs : ∀ acc,
  match containerInfos cs acc with
  | Ok infos =>
      Forall (λ c, (12 ≤ String.length (ID c))%nat) cs
      ∧ ∃ new, infos = acc ++ new
          ∧ Forall2 (λ c info, containerInfo c = Ok info) cs new
  | Err _ => False
  | Panic _ => Exists (λ c, (String.length (ID c) < 12)%nat) cs
  end.
Proof.
  induction cs as [|c cs IH]; intros acc; simpl.
  - split; [constructor|]. exists []. by rewrite app_nil_r.
  - unfold containerInfo at 1.
    destruct (Nat.ltb_spec (String.length (ID c)) 12).
    + by apply Exists_cons_hd.
    + specialize (IH (acc ++ [mkProjectContainerInfo (substring 0 12 (ID c))
                                match Names c with
                                | [] => ""
                                | name :: _ =>
                                    match name with
                                    | String "/" rest => rest
                                    | _ => name
                                    end
                                end
                                (default "" (Labels c !! "com.docker.compose.service"))
                                (State c) (Status c)])).
      destruct (containerInfos cs _) as [infos|e|e]; [|done|by apply Exists_cons_tl].
      destruct IH as (Hall & new & -> & Hnew). split; [by constructor|].
      eexists (_ :: new). rewrite <- app_assoc. split; [done|].
      constructor; [|done]. unfold containerInfo.
      by destruct (Nat.ltb_spec (String.length (ID c)) 12); [lia|].
Qed.

(** X19. [getProjectContainers] on a list Docker returns: if some container
    id is shorter than 12 bytes the call panics; otherwise it returns one
    entry per container, in order, with the container's state and status
    and an id that is the first 12 bytes of the container's id. Without a
    client, or when listing fails, it returns the empty list. *)
Theorem getProjectContainers_spec
    (dockerClient : option (string → result (list Container)))
    (projectName : string) :
  match dockerClient with
  | None => getProjectContainers dockerClient projectName = Ok []
  | Some ContainerList =>
      match ContainerList (projectFilter projectName) with
      | Ok cs =>
          match getProjectContainers dockerClient projectName with
          | Ok infos =>
              Forall (λ c, (12 ≤ String.length (ID c))%nat) cs
              ∧ Forall2 (λ c info,
                           String.length (pc_ID info) = 12%nat
                           ∧ String.prefix (pc_ID info) (ID c) = true
                           ∧ pc_State info = State c
                           ∧ pc_Status info = Status c) cs infos
          | Err _ => False
          | Panic _ => Exists (λ c, (String.length (ID c) < 12)%nat) cs
          end
      | _ => getProjectContainers dockerClient projectName = Ok []
      end
  end.
Proof.
  destruct dockerClient as [ContainerList|]; [|done]. simpl.
  destruct (ContainerList (projectFilter projectName)) as [cs| |]; [|done..].
  pose proof (containerInfos_acc cs []) as H.
  destruct (containerInfos cs []) as [infos|e|e]; [|done..].
  destruct H as (Hall & new & -> & Hnew). split; [done|]. simpl.
  eapply Forall2_impl; [exact Hnew|]. intros c info. unfold containerInfo.
  destruct (Nat.ltb_spec (String.length (ID c)) 12); [done|].
  intros [= <-]. simpl. split; [by apply substring_0_length|].
  split; [apply substring_0_prefix|done].
Qed.

End containers.

(** ** The registry client's configuration *)

Section registry_config.

Lemma substring_0_all : ∀ s, substring 0 (String.length s) s = s.
Proof. induction s as [|c s IH]; simpl; [done|]. by rewrite IH. Qed.

Lemma substring_split : ∀ n s,
  (n ≤ String.length s)%nat →
  substring 0 n s +:+ substring n (String.length s - n) s = s.
Proof.
  induction n as [|n IH]; intros s H.
  - rewrite Nat.sub_0_r, substring_0_all. by destruct s.
  - destruct s as [|c s]; simpl in *; [lia|].
    change (String c (substring 0 n s +:+ substring n (String.length s - n) s)
            = String c s).
    f_equal. apply IH. lia.
Qed.

Lemma TrimSuffix_spec s suffix :
  if strings.HasSuffix s suffix
  then s = strings.TrimSuffix s suffix +:+ suffix
  else strings.TrimSuffix s suffix = s.
Proof.
  unfold strings.TrimSuffix.
  destruct (strings.HasSuffix s suffix) eqn:E; [|done].
  unfold strings.HasSuffix in E. apply andb_true_iff in E as [Hl He].
  apply Nat.leb_le in Hl. apply String.eqb_eq in He.
  pose proof (substring_split (String.length s - String.length suffix) s) as H.
  replace (String.length s - (String.length s - String.length suffix))%nat
    with (String.length suffix) in H by lia.
  rewrite He in H. symmetry. apply H. lia.
Qed.

(** X20. [NewClient] fails exactly when [REGISTRY_URL] is unset or empty.
    Otherwise the client's base URL is the configured URL with one trailing
    slash removed, if it has one (so a URL that is just a slash gives an
    empty base URL), and certificate checks are skipped exactly when both
    the user name and the password are empty. *)
Theorem NewClient_spec (env : gmap string string) :
  let url := os.Getenv env "REGISTRY_URL" in
  match registry.NewClient env with
  | Ok c =>
      url ≠ ""
      ∧ (if strings.HasSuffix url "/"
         then url = registry.baseURL c +:+ "/"
         else registry.baseURL c = url)
      ∧ registry.username c = os.Getenv env "REGISTRY_USERNAME"
      ∧ registry.password c = os.Getenv env "REGISTRY_PASSWORD"
      ∧ (registry.InsecureSkipVerify c = true
         ↔ registry.username c = "" ∧ registry.password c = "")
  | Err _ => url = ""
  | Panic _ => False
  end.
Proof.
  cbv zeta. unfold registry.NewClient.
  destruct (decide (os.Getenv env "REGISTRY_URL" = "")) as [E|E]; [done|].
  cbn [registry.baseURL registry.username registry.password registry.InsecureSkipVerify].
  split; [done|]. split; [apply TrimSuffix_spec|]. split; [done|]. split; [done|].
  rewrite andb_true_iff, !bool_decide_eq_true. done.
Qed.

End registry_config.

(** ** Repeated passes and degenerate durations *)

Section degenerate.
Import jwtauth auth spec example service http middleware.

(** X21. The clean-up pass is idempotent and only ever shrinks the store:
    a second pass at the same instant returns the same world, and every
    session filed after a pass was filed, with the same record, before. *)
Theorem cleanup_idempotent (cfg : Config) (w : World) :
  cleanupExpiredSessions cfg (cleanupExpiredSessions cfg w)
  = cleanupExpiredSessions cfg w
  ∧ sessions (cleanupExpiredSessions cfg w) ⊆ sessions w.
Proof.
  split.
  - unfold cleanupExpiredSessions, set_sessions. cbn [sessions clock entropy].
    f_equal. apply map_eq. intros h. rewrite !range_delete_lookup.
    destruct (sessions w !! h) as [s|]; [|done].
    by destruct (_ <? _) eqn:E; [|rewrite E].
  - apply map_subseteq_spec. intros h s. simpl. rewrite range_delete_lookup.
    destruct (sessions w !! h) as [s'|]; [|done]. by destruct (_ <? _).
Qed.

(** X22. [Initialize] does not require a positive access duration. With
    an access duration of zero or less an access token is rejected by the
    guard from the moment it is issued, unless its expiry falls in a second
    the validator takes as not set (the epoch second or the start of
    year 1): then it has no expiry and is accepted at any later time. *)
Theorem nonpositive_access_duration_locks_out
    (cfg : Config) (u ua : string) (w : World) (a rt : tokenString) (w' : World)
    (next : Handler) (r : Request) (wv : World) :
  AccessTokenDuration cfg ≤ 0 →
  CreateSession cfg u ua w = (Ok (a, rt), w') →
  GetCookie r "access_token" = Some a →
  clock w ≤ clock wv →
  Protected cfg next r wv
  = if unset (time.Unix (time.Add (clock w) (AccessTokenDuration cfg)))
    then next (passed_on r (access_claims cfg u w) u) wv
    else (invalid_token, wv).
Proof.
  intros Hd H Hc Ht. rewrite CreateSession_eq in H.
  destruct (List.length (entropy w) <? 32)%nat; [done|].
  injection H as <- _ _.
  rewrite (Protected_minted cfg u w next r wv Hc Ht).
  destruct (unset _); [done|]. cbn [orb].
  destruct (Z.ltb_spec (time.Unix (clock wv))
              (time.Unix (time.Add (clock w) (AccessTokenDuration cfg)))); [|done].
  assert (time.Unix (time.Add (clock w) (AccessTokenDuration cfg))
          ≤ time.Unix (clock wv)); [|lia].
  apply Unix_mono. unfold time.Add. lia.
Qed.

Lemma nonpositive_access_duration_locks_out_witness :
  let r := request [("access_token", minted_access cfg_zero "admin" w0)] in
  Protected cfg_zero handlers.Me r w0 = (invalid_token, w0).
Proof.
  refine (nonpositive_access_duration_locks_out cfg_zero "admin" "curl" w0
            (minted_access cfg_zero "admin" w0) (minted_refresh cfg_zero "admin" w0)
            (CreateSession cfg_zero "admin" "curl" w0).2 handlers.Me
            (request [("access_token", minted_access cfg_zero "admin" w0)]) w0
            _ _ _ _).
  - reflexivity.
  - rewrite CreateSession_eq. reflexivity.
  - reflexivity.
  - reflexivity.
Defined.

End degenerate.
